(** * Verification of the live trading core of the Trading-Bot repository

    Shallow embedding of the Python modules
    - [src/engine/position.py]            (Position)
    - [src/engine/broker.py]              (backtest stop/target resolution)
    - [src/bot/risk/manager.py]           (RiskManager)
    - [src/bot/feeds/bar_aggregator.py]   (BarAggregator)
    - [src/bot/engine/reconciler.py]      (Reconciler)
    - [src/bot/engine/multi_tf_engine.py] (MultiTimeframeEngine)

    Prices, quantities and money amounts are Python floats; they are
    modelled as exact rationals [Q].  Python dicts keyed by ticker are
    stdpp [gmap string _]; the slot dict of the engine, whose iteration
    order matters for the arbitration, is a list in insertion order. *)

From Stdlib Require Import QArith Qabs Qround Lia Lqa.
From stdpp Require Import base gmap strings list.

Open Scope Q_scope.

(* ------------------------------------------------------------------ *)
(** ** Python helpers *)

(** Float comparison [a < b]. *)
Definition Qlt_bool (a b : Q) : bool := negb (Qle_bool b a).

(** [max(a, b)]: the builtin keeps [a] unless [b > a]. *)
Definition py_max (a b : Q) : Q := if Qlt_bool a b then b else a.

(** [min(a, b)]: the builtin keeps [a] unless [b < a]. *)
Definition py_min (a b : Q) : Q := if Qlt_bool b a then b else a.

(** Truth value of an [Optional[float]]: [None] and [0.0] are false. *)
Definition py_truthy (o : option Q) : bool :=
  match o with
  | Some x => negb (Qeq_bool x 0)
  | None => false
  end.

(** [a or b] on two [Optional[float]] values. *)
Definition py_or (a b : option Q) : option Q :=
  if py_truthy a then a else b.

(** [int(x)] on a float truncates toward zero. *)
Definition py_int (x : Q) : Z := Z.quot (Qnum x) (Zpos (Qden x)).

Definition streq (a b : string) : bool := String.eqb a b.

(* ------------------------------------------------------------------ *)
(** ** [engine/order.py] and [engine/position.py] *)

Record Trade := mkTrade {
  tr_ticker : string;
  tr_direction : string;
  tr_quantity : Q;
  tr_entry_price : Q
}.

Record Position := mkPosition {
  trade : Trade;
  stop_loss : option Q;
  take_profit : option Q;
  trailing_stop : option Q;
  trailing_stop_distance : option Q
}.

Definition direction (p : Position) : string := tr_direction (trade p).
Definition entry_price (p : Position) : Q := tr_entry_price (trade p).
Definition quantity (p : Position) : Q := tr_quantity (trade p).

Definition set_trailing_stop (p : Position) (t : Q) : Position :=
  mkPosition (trade p) (stop_loss p) (take_profit p) (Some t)
             (trailing_stop_distance p).

(** [Position.update_trailing_stop] *)
Definition update_trailing_stop (p : Position) (current_price : Q) : Position :=
  match trailing_stop_distance p with
  | None => p
  | Some d =>
      if streq (direction p) "long" then
        let new_stop := current_price - d in
        match trailing_stop p with
        | None => set_trailing_stop p new_stop
        | Some t => if Qlt_bool t new_stop then set_trailing_stop p new_stop else p
        end
      else
        let new_stop := current_price + d in
        match trailing_stop p with
        | None => set_trailing_stop p new_stop
        | Some t => if Qlt_bool new_stop t then set_trailing_stop p new_stop else p
        end
  end.

(** [Position._get_effective_stop] *)
Definition get_effective_stop (p : Position) : option Q :=
  match stop_loss p, trailing_stop p with
  | Some s, Some t =>
      if streq (direction p) "long" then Some (py_max s t) else Some (py_min s t)
  | _, _ => py_or (stop_loss p) (trailing_stop p)
  end.

(** [Position.is_stop_hit] *)
Definition is_stop_hit (p : Position) (bar_low bar_high : Q) : bool :=
  match get_effective_stop p with
  | None => false
  | Some e =>
      if streq (direction p) "long" then Qle_bool bar_low e
      else Qle_bool e bar_high
  end.

(** [Position.is_target_hit] *)
Definition is_target_hit (p : Position) (bar_low bar_high : Q) : bool :=
  match take_profit p with
  | None => false
  | Some tp =>
      if streq (direction p) "long" then Qle_bool tp bar_high
      else Qle_bool bar_low tp
  end.

Definition get_stop_fill_price (p : Position) : option Q := get_effective_stop p.
Definition get_target_fill_price (p : Position) : option Q := take_profit p.

(** [Position.unrealized_pnl] *)
Definition unrealized_pnl (p : Position) (current_price : Q) : Q :=
  if streq (direction p) "long" then (current_price - entry_price p) * quantity p
  else (entry_price p - current_price) * quantity p.

(** [Position.unrealized_pnl_pct] *)
Definition unrealized_pnl_pct (p : Position) (current_price : Q) : Q :=
  let cost_basis := entry_price p * quantity p in
  if Qeq_bool cost_basis 0 then 0
  else (unrealized_pnl p current_price / cost_basis) * 100.

(** Applying [update_trailing_stop] at each price of a sequence. *)
Fixpoint update_trailing_stops (p : Position) (prices : list Q) : Position :=
  match prices with
  | [] => p
  | c :: cs => update_trailing_stops (update_trailing_stop p c) cs
  end.

(** Order on effective stops: for a long position a missing stop is the
    lowest level, for a short position the highest. *)
Definition stop_le_long (a b : option Q) : Prop :=
  match a, b with
  | None, _ => True
  | Some _, None => False
  | Some x, Some y => x <= y
  end.

Definition stop_ge_short (a b : option Q) : Prop :=
  match a, b with
  | None, _ => True
  | Some _, None => False
  | Some x, Some y => y <= x
  end.

(* ------------------------------------------------------------------ *)
(** ** Bars *)

(** A bar row as the engine reads it: [row["open"]], ... *)
Record Bar := mkBar {
  b_ts : Z;          (* minutes since the epoch; seconds are always zero *)
  b_open : Q;
  b_high : Q;
  b_low : Q;
  b_close : Q;
  b_volume : Q
}.

(** A well-formed bar: open and close lie within [low, high]. *)
Definition bar_ok (b : Bar) : Prop :=
  b_low b <= b_open b <= b_high b /\ b_low b <= b_close b <= b_high b.

(** The exit the live engine's [_check_stops] takes for a bar: the stop when
    it is hit, else the target when it is hit. *)
Definition check_stops_reason (p : Position) (row : Bar) : option string :=
  if is_stop_hit p (b_low row) (b_high row) then Some "stop_loss"
  else if is_target_hit p (b_low row) (b_high row) then Some "take_profit"
  else None.

(** [SimulatedBroker._resolve_both_hit] of the backtester
    ([src/engine/broker.py]): the level closer to the open wins, ties go to
    the stop; a missing level is at infinite distance. *)
Definition resolve_both_hit (p : Position) (bar_open : Q) : option Q * string :=
  let sp := get_stop_fill_price p in
  let tp := get_target_fill_price p in
  match (if py_truthy sp then sp else None), (if py_truthy tp then tp else None) with
  | Some s, Some t =>
      if Qle_bool (Qabs (bar_open - s)) (Qabs (bar_open - t))
      then (sp, "stop_loss") else (tp, "take_profit")
  | Some _, None => (sp, "stop_loss")
  | None, Some _ => (tp, "take_profit")
  | None, None => (sp, "stop_loss")
  end.

(** [SimulatedBroker.check_stops_and_targets] *)
Definition check_stops_and_targets (p : Position) (bar : Bar) : option (option Q * string) :=
  let stop_hit := is_stop_hit p (b_low bar) (b_high bar) in
  let target_hit := is_target_hit p (b_low bar) (b_high bar) in
  if negb stop_hit && negb target_hit then None
  else if stop_hit && target_hit then Some (resolve_both_hit p (b_open bar))
  else if stop_hit then Some (get_stop_fill_price p, "stop_loss")
  else Some (get_target_fill_price p, "take_profit").

(* ------------------------------------------------------------------ *)
(** ** [bot/risk/manager.py] *)

(** The limits [RiskManager] reads from its [config]. *)
Record RiskConfig := mkRiskConfig {
  max_daily_loss : Q;
  max_drawdown_pct : Q;
  max_position_value_pct : Q;
  max_total_positions : Z;
  max_total_exposure_pct : Q;
  min_equity_for_trading : Q;
  enforce_buying_power : bool
}.

(** The signal a strategy returns ([strategies/base_strategy.py]). *)
Record Signal := mkSignal {
  sig_direction : string;
  sig_stop_loss : option Q;
  sig_take_profit : option Q;
  sig_trailing_stop_distance : option Q;
  sig_reason : string
}.

Definition is_close_kind (d : string) : bool :=
  streq d "close_long" || streq d "close_short" || streq d "flat".

(** The account dict of [BaseBroker.get_account]; [regt_buying_power] may
    be absent, which the code reads with [.get]. *)
Record Account := mkAccount {
  acc_equity : Q;
  acc_buying_power : Q;
  acc_regt_buying_power : option Q;
  acc_trading_blocked : bool
}.

Record RiskManager := mkRM {
  config : RiskConfig;
  peak_equity : Q;
  daily_pnl : Q;
  daily_trades : Z;
  daily_wins : Z;
  daily_losses : Z;
  current_date : Z;
  is_paused : bool;
  pause_reason : string;
  open_positions : gmap string Q
}.

(** The parts of the environment the manager reads: [date.today()] and the
    session filter's [is_market_hours()]. *)
Record Env := mkEnv { today : Z; market_hours : bool }.

(** [sum(self._open_positions.values())] *)
Definition exposure (m : gmap string Q) : Q := map_fold (fun _ v acc => v + acc) 0 m.

Definition contains (needle hay : string) : bool :=
  match String.index 0 needle hay with Some _ => true | None => false end.

Definition rm_set_paused (rm : RiskManager) (b : bool) (r : string) : RiskManager :=
  mkRM (config rm) (peak_equity rm) (daily_pnl rm) (daily_trades rm) (daily_wins rm)
       (daily_losses rm) (current_date rm) b r (open_positions rm).

(** [RiskManager.resume] *)
Definition rm_resume (rm : RiskManager) : RiskManager :=
  if is_paused rm then rm_set_paused rm false "" else rm.

(** [RiskManager._pause]: the first reason is kept. *)
Definition rm_pause (rm : RiskManager) (reason : string) : RiskManager :=
  if is_paused rm then rm else rm_set_paused rm true reason.

(** [RiskManager._check_day_rollover] *)
Definition check_day_rollover (env : Env) (rm : RiskManager) : RiskManager :=
  if Z.eqb (today env) (current_date rm) then rm
  else
    let rm' := mkRM (config rm) (peak_equity rm) 0 0 0 0 (today env)
                    (is_paused rm) (pause_reason rm) (open_positions rm) in
    if is_paused rm' && contains "Daily loss" (pause_reason rm') then rm_resume rm'
    else rm'.

Definition rm_set_peak (rm : RiskManager) (p : Q) : RiskManager :=
  mkRM (config rm) p (daily_pnl rm) (daily_trades rm) (daily_wins rm)
       (daily_losses rm) (current_date rm) (is_paused rm) (pause_reason rm)
       (open_positions rm).

(** Outcome of a call that may raise. *)
Inductive Result (A : Type) := Ok (a : A) | Raised.
Arguments Ok {A} a.
Arguments Raised {A}.

(** [RiskManager.check_new_order]. Reason strings keep the fixed text of
    the f-strings; the interpolated numbers are left out.  The drawdown
    division raises [ZeroDivisionError] when [peak_equity] is zero. *)
Definition check_new_order (env : Env) (rm0 : RiskManager) (signal : Signal)
    (ticker : string) (price equity buying_power : Q) (account : option Account)
    : Result (bool * string) * RiskManager :=
  let rm := check_day_rollover env rm0 in
  let cfg := config rm in
  if is_close_kind (sig_direction signal) then (Ok (true, "exit_allowed"), rm)
  else if is_paused rm then (Ok (false, String.append "Trading paused: " (pause_reason rm)), rm)
  else if (match account with Some a => acc_trading_blocked a | None => false end) then
    let rm := rm_pause rm "Trading blocked by broker" in
    (Ok (false, pause_reason rm), rm)
  else if Qlt_bool 0 (min_equity_for_trading cfg)
          && Qlt_bool equity (min_equity_for_trading cfg) then
    let rm := rm_pause rm "Equity below minimum (PDT threshold)" in
    (Ok (false, pause_reason rm), rm)
  else if Qlt_bool 0 (Qabs (daily_pnl rm))
          && Qle_bool (daily_pnl rm) (- max_daily_loss cfg) then
    let rm := rm_pause rm "Daily loss limit hit" in
    (Ok (false, pause_reason rm), rm)
  else
    let rm := if Qlt_bool (peak_equity rm) equity then rm_set_peak rm equity else rm in
    if Qeq_bool (peak_equity rm) 0 then (Raised, rm)
    else
    let drawdown_pct := ((peak_equity rm - equity) / peak_equity rm) * 100 in
    if Qle_bool (max_drawdown_pct cfg) drawdown_pct then
      let rm := rm_pause rm "Drawdown circuit breaker" in
      (Ok (false, pause_reason rm), rm)
    else if bool_decide (is_Some (open_positions rm !! ticker)) then
      (Ok (false, String.append "Already in position for " ticker), rm)
    else if Z.leb (max_total_positions cfg) (Z.of_nat (size (open_positions rm))) then
      (Ok (false, "Max total positions reached"), rm)
    else
    let current_exposure := exposure (open_positions rm) in
    let max_total_exposure := equity * max_total_exposure_pct cfg in
    let remaining_capacity := max_total_exposure - current_exposure in
    if Qle_bool remaining_capacity 0 then (Ok (false, "Max total exposure reached"), rm)
    else
    let max_value := equity * max_position_value_pct cfg in
    if Qlt_bool max_value price then
      (Ok (false, "Single share exceeds max position value"), rm)
    else if (match account with
             | Some a =>
                 enforce_buying_power cfg &&
                 let regt_bp := match acc_regt_buying_power a with
                                | Some r => r | None => buying_power end in
                 Qle_bool (regt_bp - current_exposure) 0
             | None => false end) then
      (Ok (false, "Insufficient buying power"), rm)
    else if negb (market_hours env) then (Ok (false, "Outside market hours"), rm)
    else (Ok (true, "approved"), rm).

Definition rm_set_positions (rm : RiskManager) (m : gmap string Q) : RiskManager :=
  mkRM (config rm) (peak_equity rm) (daily_pnl rm) (daily_trades rm) (daily_wins rm)
       (daily_losses rm) (current_date rm) (is_paused rm) (pause_reason rm) m.

(** [RiskManager.record_trade_opened] *)
Definition record_trade_opened (rm : RiskManager) (ticker : string) (value : Q) : RiskManager :=
  mkRM (config rm) (peak_equity rm) (daily_pnl rm) (daily_trades rm + 1)%Z
       (daily_wins rm) (daily_losses rm) (current_date rm) (is_paused rm)
       (pause_reason rm) (<[ticker := value]> (open_positions rm)).

(** [RiskManager.record_trade_closed] *)
Definition record_trade_closed (env : Env) (rm0 : RiskManager) (ticker : string) (pnl : Q)
    : RiskManager :=
  let rm := check_day_rollover env rm0 in
  let pnl' := daily_pnl rm + pnl in
  let rm := mkRM (config rm) (peak_equity rm) pnl' (daily_trades rm)
                 (if Qle_bool 0 pnl then daily_wins rm + 1 else daily_wins rm)%Z
                 (if Qle_bool 0 pnl then daily_losses rm else daily_losses rm + 1)%Z
                 (current_date rm) (is_paused rm) (pause_reason rm)
                 (delete ticker (open_positions rm)) in
  if Qle_bool (daily_pnl rm) (- max_daily_loss (config rm))
  then rm_pause rm "Daily loss limit hit" else rm.

(** [RiskManager.get_remaining_capacity] *)
Definition get_remaining_capacity (rm : RiskManager) (equity : Q) : Q :=
  py_max 0 (equity * max_total_exposure_pct (config rm) - exposure (open_positions rm)).

(** [RiskManager.get_open_position_count] *)
Definition get_open_position_count (rm : RiskManager) : Z := Z.of_nat (size (open_positions rm)).

(** The dict [RiskManager.get_daily_stats] returns ([date] as the day number). *)
Record DailyStats := mkDailyStats {
  ds_date : Z;
  ds_daily_pnl : Q;
  ds_trades : Z;
  ds_wins : Z;
  ds_losses : Z;
  ds_is_paused : bool;
  ds_pause_reason : string
}.

(** [RiskManager.get_daily_stats]: the rollover check, then the counters. *)
Definition get_daily_stats (env : Env) (rm0 : RiskManager) : DailyStats * RiskManager :=
  let rm := check_day_rollover env rm0 in
  (mkDailyStats (current_date rm) (daily_pnl rm) (daily_trades rm) (daily_wins rm)
                (daily_losses rm) (is_paused rm) (pause_reason rm), rm).

(** [RiskManager.__init__], on the day [today env]. *)
Definition rm_init (cfg : RiskConfig) (initial_equity : Q) (env : Env) : RiskManager :=
  mkRM cfg initial_equity 0 0 0 0 (today env) false "" ∅.

(* ------------------------------------------------------------------ *)
(** ** [bot/feeds/bar_aggregator.py] *)

(** A Python [dict] with string keys: its entries, and its keys in
    insertion order ([dict.keys()] iterates in that order). *)
Record pydict (V : Type) := mkDict { d_map : gmap string V; d_keys : list string }.
Arguments mkDict {V} _ _.
Arguments d_map {V} _.
Arguments d_keys {V} _.

(** [{}] *)
#[global] Instance pydict_empty {V} : Empty (pydict V) := mkDict ∅ [].
(** [d.get(k)] *)
#[global] Instance pydict_lookup {V} : Lookup string V (pydict V) :=
  fun k d => d_map d !! k.
(** [d[k] = v]: a new key goes last in the order, a key already present
    keeps its place. *)
#[global] Instance pydict_insert {V} : Insert string V (pydict V) :=
  fun k v d => mkDict (<[k := v]> (d_map d))
                      (match d_map d !! k with
                       | Some _ => d_keys d
                       | None => d_keys d ++ [k]
                       end).
(** Updating the value of one key in place, and of every key: the order
    of the keys is kept. *)
#[global] Instance pydict_alter {V} : Alter string V (pydict V) :=
  fun f k d => mkDict (alter f k (d_map d)) (d_keys d).
#[global] Instance pydict_fmap : FMap pydict :=
  fun A B f d => mkDict (f <$> d_map d) (d_keys d).

(** What every dict built by [{}] and [d[k] = v] satisfies: each key is
    listed once, and the listed keys are the keys present. *)
Definition dict_wf {V} (d : pydict V) : Prop :=
  NoDup (d_keys d) /\ forall k, k ∈ d_keys d <-> is_Some (d_map d !! k).

Module Aggregator.

(** The per-ticker buffer [{"window_start": ..., "bars": [...]}]. *)
Record Buf := mkBuf { window_start : Z; bars : list Bar }.

Abbreviation Buffers := (pydict Buf).

(** [ts.minute]: timestamps are minutes since the epoch, and hours are
    whole multiples of 60 minutes. *)
Definition minute (ts : Z) : Z := (ts mod 60)%Z.

(** [BarAggregator._get_window_start] *)
Definition get_window_start (tf_minutes ts : Z) : Z :=
  (ts - minute ts + (minute ts / tf_minutes) * tf_minutes)%Z.

(** [max(b["high"] for b in bars)] on a non-empty list [b0 :: rest]. *)
Definition max_high (b0 : Bar) (rest : list Bar) : Q :=
  fold_left (fun m b => if Qlt_bool m (b_high b) then b_high b else m) rest (b_high b0).

(** [min(b["low"] for b in bars)] *)
Definition min_low (b0 : Bar) (rest : list Bar) : Q :=
  fold_left (fun m b => if Qlt_bool (b_low b) m then b_low b else m) rest (b_low b0).

(** [sum(b["volume"] for b in bars)], starting from [0]. *)
Definition sum_volume (bs : list Bar) : Q :=
  fold_left (fun acc b => acc + b_volume b) bs 0.

(** [BarAggregator._aggregate] on the non-empty list [b0 :: rest]. *)
Definition aggregate (b0 : Bar) (rest : list Bar) (ws : Z) : Bar :=
  mkBar ws (b_open b0) (max_high b0 rest) (min_low b0 rest)
        (b_close (List.last (b0 :: rest) b0)) (sum_volume (b0 :: rest)).

(** Emitting a buffer when it holds bars ([if buf["bars"]: ...]). *)
Definition emit_buf (ticker : string) (buf : Buf) : list (string * Bar) :=
  match bars buf with
  | [] => []
  | b0 :: rest => [(ticker, aggregate b0 rest (window_start buf))]
  end.

(** [BarAggregator.on_minute_bar]: new buffers and the callback calls. *)
Definition on_minute_bar (tf_minutes : Z) (bufs : Buffers) (ticker : string) (bar : Bar)
    : Buffers * list (string * Bar) :=
  if Z.eqb tf_minutes 1 then (bufs, [(ticker, bar)])
  else
    let ts := b_ts bar in
    let ws := get_window_start tf_minutes ts in
    let window_end := (ws + tf_minutes)%Z in
    let buf := match bufs !! ticker with
               | Some b => b
               | None => mkBuf ws []
               end in
    let '(out1, buf) :=
      if Z.eqb ws (window_start buf) then ([], buf)
      else (emit_buf ticker buf, mkBuf ws []) in
    let buf := mkBuf (window_start buf) (bars buf ++ [bar]) in
    let bar_minute_in_window := (minute ts mod tf_minutes + 1)%Z in
    if Z.leb tf_minutes bar_minute_in_window then
      (<[ticker := mkBuf window_end []]> bufs, out1 ++ emit_buf ticker buf)
    else (<[ticker := buf]> bufs, out1).

(** One iteration of the loop of [BarAggregator.flush], for ticker [t]. *)
Definition flush_step (acc : Buffers * list (string * Bar)) (t : string)
    : Buffers * list (string * Bar) :=
  let '(bs, out) := acc in
  match bs !! t with
  | Some buf =>
      match bars buf with
      | [] => (bs, out)
      | _ => (<[t := mkBuf (window_start buf) []]> bs, out ++ emit_buf t buf)
      end
  | None => (bs, out)
  end.

(** [BarAggregator.flush]: [[ticker] if ticker else list(self._buffers.keys())]. *)
Definition flush (bufs : Buffers) (ticker : option string) : Buffers * list (string * Bar) :=
  let tickers := match ticker with
                 | Some t => if streq t "" then d_keys bufs else [t]
                 | None => d_keys bufs
                 end in
  fold_left flush_step tickers (bufs, []).

Inductive Event :=
  | MinuteBar (ticker : string) (bar : Bar)
  | Flush (ticker : option string).

Definition step (tf_minutes : Z) (bufs : Buffers) (e : Event) : Buffers * list (string * Bar) :=
  match e with
  | MinuteBar t b => on_minute_bar tf_minutes bufs t b
  | Flush t => flush bufs t
  end.

(** A run of the aggregator over a sequence of events: final buffers and
    every bar handed to the callback, in order. *)
Fixpoint run (tf_minutes : Z) (bufs : Buffers) (es : list Event) : Buffers * list (string * Bar) :=
  match es with
  | [] => (bufs, [])
  | e :: es' =>
      let '(bufs1, out1) := step tf_minutes bufs e in
      let '(bufs2, out2) := run tf_minutes bufs1 es' in
      (bufs2, out1 ++ out2)
  end.

End Aggregator.

(* ------------------------------------------------------------------ *)
(** ** [bot/engine/reconciler.py] *)

Module Reconciler.

(** The fields of the dict [BaseBroker.get_position] returns that the
    reconciler reads. *)
Record BrokerPos := mkBrokerPos { side : string; qty : Q; avg_price : Q }.

(** The dict [Reconciler.reconcile] returns (the [details] text omitted). *)
Record ReconcileResult := mkResult {
  r_match : bool;
  r_broker_position : option BrokerPos;
  r_local_position : option Position;
  r_action : string
}.

(** [Reconciler.reconcile], after [broker.get_position(ticker)]. *)
Definition reconcile (local_position : option Position) (broker_pos : option BrokerPos)
    : ReconcileResult :=
  let has_local := bool_decide (is_Some local_position) in
  let has_broker := bool_decide (is_Some broker_pos) in
  if negb has_local && negb has_broker then mkResult true None None "none"
  else match local_position, broker_pos with
  | Some lp, Some bp =>
      if streq (direction lp) (side bp) && Qlt_bool (Qabs (quantity lp - qty bp)) (1 # 100)
      then mkResult true broker_pos local_position "none"
      else mkResult false broker_pos local_position "mismatch"
  | None, Some _ => mkResult false broker_pos None "adopt_broker"
  | Some _, None => mkResult false None local_position "clear_local"
  | None, None => mkResult false broker_pos local_position "unknown"
  end.

(** [Reconciler.adopt_broker_position] *)
Definition adopt_broker_position (bp : BrokerPos) (ticker : string) : Position :=
  mkPosition (mkTrade ticker (side bp) (qty bp) (avg_price bp)) None None None None.

End Reconciler.

(* ------------------------------------------------------------------ *)
(** ** [bot/engine/multi_tf_engine.py] *)

Module Engine.
Import Reconciler.

(** The last row of a slot's indicator frame: the OHLCV bar and the
    indicator columns, [None] standing for NaN. *)
Record Row := mkRow { r_bar : Bar; r_cols : list (string * option Q) }.

(** [_TimeframeSlot]; the strategy object and its frame are not state of
    the model: what [setup] and [on_bar] return is an input of [on_bar]. *)
Record Slot := mkSlot {
  timeframe : string;
  tf_minutes : Z;
  bar_count : Z;
  last_signal : option Signal;
  last_signal_row : option Row;
  last_signal_time : option Q       (* seconds, from [datetime.utcnow()] *)
}.

Record Engine := mkEngine {
  ticker : string;
  slots : list Slot;                 (* the dict in insertion order *)
  position : option Position;
  active_tf : option string;
  active : bool;
  total_bars : Z;
  has_risk_manager : bool;           (* [risk_manager is not None] *)
  long_only : bool;
  sizing_method : string;
  pct_equity : Q;
  fixed_size : Q;
  risk_pct : Q
}.

(** The market order the engine submits. *)
Record Order := mkOrder {
  o_ticker : string;
  o_direction : string;
  o_quantity : Z;
  o_stop_loss : option Q;
  o_take_profit : option Q;
  o_reason : string
}.

(** The broker as the engine sees it.  [submit_order] answers [None] when
    it raises ([OrderRejectedException] or any other error). *)
Record Broker := mkBroker {
  get_account : Result Account;
  submit_order : Order -> option Trade;
  close_position : string -> Result (option Trade);
  get_position : string -> option BrokerPos
}.

(** Calls made against the broker, in order. *)
Inductive BrokerCall :=
  | CallGetAccount
  | CallSubmit (o : Order)
  | CallClose (t : string)
  | CallGetPosition (t : string).

(** The state one engine works on: its own fields, the risk manager it
    shares with the other engines, and the broker calls made so far. *)
Record World := mkWorld { eng : Engine; rmgr : RiskManager; calls : list BrokerCall }.

(** State and exception monad: an escaping Python exception is [Raised]. *)
Definition M (A : Type) : Type := World -> Result (A * World).

Definition ret {A} (a : A) : M A := fun w => Ok (a, w).
Definition bind {A B} (m : M A) (k : A -> M B) : M B :=
  fun w => match m w with Ok (a, w') => k a w' | Raised => Raised end.
Definition raise {A} : M A := fun _ => Raised.
Definition get : M World := fun w => Ok (w, w).
Definition put (w : World) : M unit := fun _ => Ok (tt, w).
Definition modify_eng (f : Engine -> Engine) : M unit :=
  fun w => Ok (tt, mkWorld (f (eng w)) (rmgr w) (calls w)).
Definition modify_rm (f : RiskManager -> RiskManager) : M unit :=
  fun w => Ok (tt, mkWorld (eng w) (f (rmgr w)) (calls w)).
Definition log_call (c : BrokerCall) : M unit :=
  fun w => Ok (tt, mkWorld (eng w) (rmgr w) (calls w ++ [c])).

Notation "'let*' x ':=' m 'in' k" := (bind m (fun x => k))
  (at level 200, x name, m at level 100, k at level 200).
Notation "m ;;; k" := (bind m (fun _ => k)) (at level 100, right associativity).

Definition set_position (p : option Position) (e : Engine) : Engine :=
  mkEngine (ticker e) (slots e) p (active_tf e) (active e) (total_bars e)
           (has_risk_manager e) (long_only e) (sizing_method e) (pct_equity e)
           (fixed_size e) (risk_pct e).
Definition set_active_tf (t : option string) (e : Engine) : Engine :=
  mkEngine (ticker e) (slots e) (position e) t (active e) (total_bars e)
           (has_risk_manager e) (long_only e) (sizing_method e) (pct_equity e)
           (fixed_size e) (risk_pct e).
Definition set_active (b : bool) (e : Engine) : Engine :=
  mkEngine (ticker e) (slots e) (position e) (active_tf e) b (total_bars e)
           (has_risk_manager e) (long_only e) (sizing_method e) (pct_equity e)
           (fixed_size e) (risk_pct e).
Definition set_slots (ss : list Slot) (e : Engine) : Engine :=
  mkEngine (ticker e) ss (position e) (active_tf e) (active e) (total_bars e)
           (has_risk_manager e) (long_only e) (sizing_method e) (pct_equity e)
           (fixed_size e) (risk_pct e).
Definition incr_total_bars (e : Engine) : Engine :=
  mkEngine (ticker e) (slots e) (position e) (active_tf e) (active e) (total_bars e + 1)%Z
           (has_risk_manager e) (long_only e) (sizing_method e) (pct_equity e)
           (fixed_size e) (risk_pct e).

Definition clear_signal (s : Slot) : Slot :=
  mkSlot (timeframe s) (tf_minutes s) (bar_count s) None (last_signal_row s)
         (last_signal_time s).
Definition post_signal (sg : Signal) (row : Row) (now : Q) (s : Slot) : Slot :=
  mkSlot (timeframe s) (tf_minutes s) (bar_count s) (Some sg) (Some row) (Some now).
Definition incr_bar_count (s : Slot) : Slot :=
  mkSlot (timeframe s) (tf_minutes s) (bar_count s + 1)%Z (last_signal s)
         (last_signal_row s) (last_signal_time s).

(** [self.slots.get(tf)] and the update of that dict entry. *)
Definition find_slot (tf : string) (ss : list Slot) : option Slot :=
  List.find (fun s => streq (timeframe s) tf) ss.
Definition update_slot (tf : string) (f : Slot -> Slot) (ss : list Slot) : list Slot :=
  map (fun s => if streq (timeframe s) tf then f s else s) ss.

(** [_get_adx] / [_get_rsi]: the first listed column present and not NaN. *)
Fixpoint first_col (names : list string) (cols : list (string * option Q)) : option Q :=
  match names with
  | [] => None
  | n :: ns =>
      match List.find (fun c => streq (fst c) n) cols with
      | Some (_, Some v) => Some v
      | _ => first_col ns cols
      end
  end.

Definition get_adx (s : Slot) : Q :=
  match last_signal_row s with
  | Some row =>
      match first_col ["ADX_14"; "ADX_10"; "ADX_20"] (r_cols row) with
      | Some v => v
      | None => 15
      end
  | None => 15
  end.

Definition get_rsi (s : Slot) : option Q :=
  match last_signal_row s with
  | Some row => first_col ["RSI_9"; "RSI_14"; "RSI_7"] (r_cols row)
  | None => None
  end.

(** The freshness test [(now - last_signal_time) < 120] with both present. *)
Definition fresh (now : Q) (s : Slot) : bool :=
  match last_signal s, last_signal_time s with
  | Some _, Some t => Qlt_bool (now - t) 120
  | _, _ => false
  end.

(** [_count_tf_agreement] *)
Definition count_tf_agreement (now : Q) (ss : list Slot) (sg : Signal) : Z :=
  Z.of_nat (length (List.filter (fun s =>
    fresh now s &&
    match last_signal s with
    | Some l => streq (sig_direction l) (sig_direction sg)
    | None => false
    end) ss)).

(** [_score_signal]; [-999] is the hard-block sentinel. *)
Definition score_signal (now : Q) (ss : list Slot) (s : Slot) (sg : Signal) : Q :=
  let rsi := get_rsi s in
  let blocked_by_rsi :=
    match rsi with
    | Some r =>
        (streq (sig_direction sg) "long" && Qlt_bool 80 r)
        || (streq (sig_direction sg) "short" && Qlt_bool r 20)
    | None => false
    end in
  if blocked_by_rsi then -999
  else
  let agreement_count := count_tf_agreement now ss sg in
  if Z.ltb agreement_count 2 then -999
  else
  let adx := get_adx s in
  let score := 0 in
  let score := if Qlt_bool 25 adx then score + py_min (adx * 1) 40
               else if Qlt_bool 20 adx then score + adx * (1 # 2)
               else score + adx * (1 # 5) in
  let score :=
    match last_signal_row s with
    | Some row =>
        if py_truthy (sig_stop_loss sg) && py_truthy (sig_take_profit sg) then
          let price := b_close (r_bar row) in
          let sl := match sig_stop_loss sg with Some x => x | None => 0 end in
          let tp := match sig_take_profit sg with Some x => x | None => 0 end in
          let risk := Qabs (price - sl) in
          let reward := Qabs (tp - price) in
          if Qlt_bool 0 risk then score + py_min ((reward / risk) * 10) 30 else score
        else score
    | None => score
    end in
  let tf_bonus := py_max 0 (20 - inject_Z (tf_minutes s) * (3 # 2)) in
  let score := score + tf_bonus in
  let score := score + inject_Z (agreement_count - 1) * 15 in
  match rsi with
  | Some r =>
      if streq (sig_direction sg) "long" then
        if Qlt_bool r 70 then score + 10
        else if Qlt_bool r 75 then score + 5
        else score - 5
      else if streq (sig_direction sg) "short" then
        if Qlt_bool 30 r then score + 10
        else if Qlt_bool 25 r then score + 5
        else score - 5
      else score
  | None => score
  end.

Section Ops.

(** The broker, the risk manager's environment and the wall clock
    ([datetime.utcnow()], read without suspension in between, so one
    reading per bar) are fixed for one call. *)
Variable broker : Broker.
Variable env : Env.
Variable now : Q.

(** [_close_position]; the database and daily report writes and the
    strategies' [on_trade_closed] hooks touch no state of the model.  The
    [pnl_pct] value computed before the risk manager is told is only
    logged, but its division can raise. *)
Definition close_position_op (signal : Signal) (row : Row) (tf : string) : M unit :=
  let* w := get in
  match position (eng w) with
  | None => ret tt
  | Some pos =>
      log_call (CallClose (ticker (eng w))) ;;;
      match close_position broker (ticker (eng w)) with
      | Raised => ret tt
      | Ok None =>
          modify_eng (set_position None) ;;; modify_eng (set_active_tf None)
      | Ok (Some close_result) =>
          let exit_price := tr_entry_price close_result in
          let pnl := if streq (direction pos) "long"
                     then (exit_price - entry_price pos) * quantity pos
                     else (entry_price pos - exit_price) * quantity pos in
          (* [pnl / (entry_price * quantity)] raises [ZeroDivisionError]
             when [entry_price > 0] and the cost basis is zero. *)
          if Qlt_bool 0 (entry_price pos) && Qeq_bool (entry_price pos * quantity pos) 0
          then raise
          else
          (if has_risk_manager (eng w) then
             modify_rm (fun rm => record_trade_closed env rm (ticker (eng w)) pnl) ;;;
             let* w' := get in
             if is_paused (rmgr w') then modify_eng (set_active false) else ret tt
           else ret tt) ;;;
          modify_eng (set_position None) ;;; modify_eng (set_active_tf None)
      end
  end.

(** [_check_stops] *)
Definition check_stops_op (row : Row) (tf : string) : M unit :=
  let* w := get in
  match position (eng w) with
  | None => ret tt
  | Some pos =>
      match check_stops_reason pos (r_bar row) with
      | Some reason =>
          close_position_op
            (mkSignal (String.append "close_" (direction pos)) None None None reason)
            row tf
      | None => ret tt
      end
  end.

(** The account [_calculate_quantity] falls back to. *)
Definition default_account : Account := mkAccount 60000 60000 (Some 60000) false.

(** The value [_calculate_quantity] sizes the order for: the base amount
    of the sizing method, capped by the risk manager's remaining capacity
    and then by the Reg-T buying power left. *)
Definition sized_value (e : Engine) (rm : RiskManager) (account : Account) (price : Q)
    (signal : Signal) : Q :=
  let equity := acc_equity account in
  let desired_value :=
    if streq (sizing_method e) "fixed" then fixed_size e
    else if streq (sizing_method e) "percent" then equity * pct_equity e
    else if streq (sizing_method e) "risk_based" then
      match sig_stop_loss signal with
      | Some sl =>
          if py_truthy (Some sl) then
            let stop_dist := Qabs (price - sl) in
            if Qlt_bool 0 stop_dist then (equity * risk_pct e / stop_dist) * price
            else equity * risk_pct e
          else equity * risk_pct e
      | None => equity * risk_pct e
      end
    else equity * pct_equity e in
  let desired_value :=
    if has_risk_manager e then
      let remaining := get_remaining_capacity rm equity in
      if Qlt_bool remaining desired_value then remaining else desired_value
    else desired_value in
  let current_exposure := if has_risk_manager e then exposure (open_positions rm) else 0 in
  let regt_bp := match acc_regt_buying_power account with
                 | Some r => r | None => equity * 2 end in
  let available_bp := regt_bp - current_exposure in
  if Qlt_bool available_bp desired_value && Qlt_bool 0 available_bp
  then available_bp else desired_value.

(** [_calculate_quantity]; [int(desired_value / price)] raises
    [ZeroDivisionError] when [price] is zero. *)
Definition calculate_quantity (price : Q) (signal : Signal) (account : option Account) : M Z :=
  let* account :=
    match account with
    | Some a => ret a
    | None =>
        log_call CallGetAccount ;;;
        match get_account broker with
        | Ok a => ret a
        | Raised => ret default_account
        end
    end in
  let* w := get in
  let desired_value := sized_value (eng w) (rmgr w) account price signal in
  if Qeq_bool price 0 then raise
  else let n := py_int (desired_value / price) in
       ret (if Z.ltb 1 n then n else 1%Z).

(** [_open_position] *)
Definition open_position_op (signal : Signal) (row : Row) (tf : string) : M unit :=
  let* w := get in
  match position (eng w) with
  | Some _ => ret tt
  | None =>
      let price := b_close (r_bar row) in
      (* the risk check: [None] = blocked, [Some account] = go on *)
      let* checked :=
        if has_risk_manager (eng w) then
          log_call CallGetAccount ;;;
          match get_account broker with
          | Raised => ret (Some None)          (* exception caught and logged *)
          | Ok acc =>
              let* w1 := get in
              let '(res, rm') :=
                check_new_order env (rmgr w1) signal (ticker (eng w1)) price
                  (acc_equity acc) (acc_buying_power acc) (Some acc) in
              modify_rm (fun _ => rm') ;;;
              match res with
              | Ok (false, _) => ret None
              | _ => ret (Some (Some acc))     (* allowed, or exception caught *)
              end
          end
        else (ret (Some None) : M (option (option Account))) in
      match checked with
      | None => ret tt
      | Some account =>
          let* q := calculate_quantity price signal account in
          if Z.leb q 0 then ret tt
          else
            let* w2 := get in
            let order := mkOrder (ticker (eng w2)) (sig_direction signal) q
                           (sig_stop_loss signal) (sig_take_profit signal)
                           (sig_reason signal) in
            log_call (CallSubmit order) ;;;
            match submit_order broker order with
            | None => ret tt
            | Some tr =>
                modify_eng (set_position (Some (mkPosition tr (sig_stop_loss signal)
                             (sig_take_profit signal) None
                             (sig_trailing_stop_distance signal)))) ;;;
                modify_eng (set_active_tf (Some tf)) ;;;
                if has_risk_manager (eng w2) then
                  modify_rm (fun rm => record_trade_opened rm (ticker (eng w2))
                                         (tr_quantity tr * tr_entry_price tr))
                else ret tt
            end
      end
  end.

(** The scoring loop of [_evaluate_entries]: the first candidate with the
    strictly highest score wins. *)
Fixpoint pick_best (ss : list Slot) (cands : list Slot)
    (best : option Slot) (best_score : Q) : option Slot * Q :=
  match cands with
  | [] => (best, best_score)
  | c :: cs =>
      let score := match last_signal c with
                   | Some sg => score_signal now ss c sg
                   | None => best_score
                   end in
      if Qlt_bool best_score score then pick_best ss cs (Some c) score
      else pick_best ss cs best best_score
  end.

Definition clear_all_signals : M unit :=
  modify_eng (fun e => set_slots (map clear_signal (slots e)) e).

(** [_evaluate_entries] *)
Definition evaluate_entries (current_row : Row) : M unit :=
  let* w := get in
  match position (eng w) with
  | Some _ => clear_all_signals
  | None =>
      let ss := slots (eng w) in
      let candidates := List.filter (fresh now) ss in
      match candidates with
      | [] => ret tt
      | _ =>
          let '(best, best_score) := pick_best ss candidates None (-999) in
          match best with
          | Some b =>
              if negb (streq (timeframe b) "") && Qlt_bool 0 best_score then
                match last_signal b, last_signal_row b with
                | Some sg, Some row => open_position_op sg row (timeframe b)
                | _, _ => raise
                end
              else ret tt
          | None => ret tt
          end ;;;
          clear_all_signals
      end
  end.

(** Lines 159-163 of [on_bar]: buffer an entry signal on the slot, then
    arbitrate. *)
Definition post_entry_signal (tf : string) (signal : Signal) (row : Row) : M unit :=
  modify_eng (fun e => set_slots (update_slot tf (post_signal signal row now) (slots e)) e) ;;;
  evaluate_entries row.

(** [on_bar].  [setup] is the outcome of [slot.strategy.setup(slot.df)],
    the last row of the refreshed frame, and [strategy] gives what
    [slot.strategy.on_bar(idx, row, position=...)] returns for the
    position it is shown. *)
Definition on_bar (tk tf : string) (setup : Result Row)
    (strategy : option Position -> Result (option Signal)) : M unit :=
  let* w := get in
  let e := eng w in
  if negb (active e) || negb (streq tk (ticker e)) then ret tt
  else
  match find_slot tf (slots e) with
  | None => ret tt
  | Some _ =>
      modify_eng (fun e => set_slots (update_slot tf incr_bar_count (slots e)) e) ;;;
      modify_eng incr_total_bars ;;;
      match setup with
      | Raised => ret tt
      | Ok row =>
          let* w := get in
          (if bool_decide (is_Some (position (eng w)))
              && bool_decide (active_tf (eng w) = Some tf)
           then check_stops_op row tf else ret tt) ;;;
          let* w := get in
          (match position (eng w) with
           | Some p =>
               if bool_decide (active_tf (eng w) = Some tf) then
                 modify_eng (set_position (Some (update_trailing_stop p (b_close (r_bar row)))))
               else ret tt
           | None => ret tt
           end) ;;;
          let* w := get in
          match strategy (position (eng w)) with
          | Raised => ret tt
          | Ok None => ret tt
          | Ok (Some signal) =>
              let d := sig_direction signal in
              if long_only (eng w) && (streq d "short" || streq d "close_short") then ret tt
              else if is_close_kind d then
                match position (eng w) with
                | Some _ => close_position_op signal row tf
                | None => ret tt
                end
              else post_entry_signal tf signal row
          end
      end
  end.

(** [MultiTimeframeEngine.reconcile] *)
Definition reconcile_op : M ReconcileResult :=
  let* w := get in
  log_call (CallGetPosition (ticker (eng w))) ;;;
  let result := reconcile (position (eng w)) (get_position broker (ticker (eng w))) in
  (if r_match result then ret tt
   else if streq (r_action result) "adopt_broker" then
     match r_broker_position result with
     | Some bp =>
         modify_eng (set_position (Some (adopt_broker_position bp (ticker (eng w))))) ;;;
         modify_eng (set_active_tf (Some "reconciled"))
     | None => raise
     end
   else if streq (r_action result) "clear_local" then
     modify_eng (set_position None) ;;; modify_eng (set_active_tf None)
   else ret tt) ;;;
  ret result.

End Ops.

(** [MultiTimeframeEngine.pause] *)
Definition pause_op : M unit := modify_eng (set_active false).

(** [MultiTimeframeEngine.resume] *)
Definition resume_op : M unit := modify_eng (set_active true).

End Engine.

(* ================================================================== *)
(** * Invariants and scenarios *)

(** What a run of the bar aggregator receives and emits, per ticker. *)
Module AggregatorInv.
Import Aggregator.

(** The 1-minute bars received for ticker [t], in arrival order. *)
Definition arrived (t : string) (es : list Event) : list Bar :=
  flat_map (fun e => match e with
                     | MinuteBar t' b => if streq t' t then [b] else []
                     | Flush _ => []
                     end) es.

(** The bars handed to the callback for ticker [t], in order. *)
Definition emitted (t : string) (out : list (string * Bar)) : list Bar :=
  map snd (List.filter (fun o => streq (fst o) t) out).

(** The bars ticker [t]'s buffer holds. *)
Definition pending (t : string) (bufs : Buffers) : list Bar :=
  match bufs !! t with
  | Some buf => bars buf
  | None => []
  end.

(** A non-empty group of consecutive bars, as its first bar and the rest. *)
Definition group_bars (g : Bar * list Bar) : list Bar := g.1 :: g.2.

(** The bars of one buffer, as at most one group. *)
Definition groups_of (l : list Bar) : list (Bar * list Bar) :=
  match l with
  | [] => []
  | b0 :: rest => [(b0, rest)]
  end.

(** [agg] is the aggregate of group [g], all of whose bars lie in the
    window [agg] is stamped with. *)
Definition agg_of (N : Z) (g : Bar * list Bar) (agg : Bar) : Prop :=
  agg = aggregate g.1 g.2 (b_ts agg) /\
  Forall (fun b => get_window_start N (b_ts b) = b_ts agg) (group_bars g).

(** Every bar ticker [t]'s buffer holds lies in the window it targets. *)
Definition win_ok (N : Z) (t : string) (bufs : Buffers) : Prop :=
  forall buf, bufs !! t = Some buf ->
  Forall (fun b => get_window_start N (b_ts b) = window_start buf) (bars buf).

End AggregatorInv.

(** Concrete positions, bars, accounts, brokers and engine states the
    properties are exercised on. *)
Module Scenarios.
Import Reconciler Aggregator Engine.

Definition c8_long : Position :=
  mkPosition (mkTrade "MSTR" "long" 10 100) (Some 98) (Some 104) None (Some 2).

Definition c3_position : Position :=
  mkPosition (mkTrade "MSTR" "long" 10 100) (Some 98) (Some 104) None None.

Definition c3_bar : Bar := mkBar 870 (1035 # 10) 105 97 103 1000.

(** Minute [m] of 14:00 on the first day of the epoch. *)
Definition at1400 (m : Z) : Z := (14 * 60 + m)%Z.

Definition mbar (m : Z) (o h l c v : Q) : Bar := mkBar (at1400 m) o h l c v.

Definition c5_events : list Event :=
  [MinuteBar "MSTR" (mbar 31 10 11 9 10 100);
   MinuteBar "MSTR" (mbar 32 10 12 10 11 200);
   MinuteBar "MSTR" (mbar 33 11 (23 # 2) (21 # 2) 11 300);
   MinuteBar "MSTR" (mbar 34 11 11 11 11 50)].

(** Bars 14:30 to 14:34 complete the 14:30 window; a bar stamped 14:33
    then arrives late, followed by the 14:35 bar. *)
Definition c4_prefix : list Event :=
  [MinuteBar "MSTR" (mbar 30 10 11 9 10 100);
   MinuteBar "MSTR" (mbar 31 10 12 10 11 200);
   MinuteBar "MSTR" (mbar 32 11 12 10 11 300);
   MinuteBar "MSTR" (mbar 33 11 12 10 11 300);
   MinuteBar "MSTR" (mbar 34 11 12 10 12 300);
   MinuteBar "MSTR" (mbar 33 12 14 12 13 999)].

Definition c4_events : list Event := c4_prefix ++ [MinuteBar "MSTR" (mbar 35 13 13 13 13 10)].

Definition cfg0 : RiskConfig := mkRiskConfig 3000 15 (9 # 10) 5 1 25000 true.

Definition rm0 (cfg : RiskConfig) : RiskManager :=
  mkRM cfg 60000 0 0 0 0 100 false "" ∅.

Definition env0 : Env := mkEnv 100 true.

Definition long_signal : Signal := mkSignal "long" (Some 98) (Some 104) None "entry".

Definition acc0 : Account := mkAccount 60000 120000 (Some 120000) false.

(** The risk manager's operations, as the engines call them. *)
Inductive RmOp :=
  | OpCheck (env : Env) (sg : Signal) (tk : string) (price equity bp : Q) (acc : option Account)
  | OpOpened (tk : string) (v : Q)
  | OpClosed (env : Env) (tk : string) (pnl : Q)
  | OpResume.

Definition apply_op (rm : RiskManager) (op : RmOp) : RiskManager :=
  match op with
  | OpCheck env sg tk price equity bp acc => snd (check_new_order env rm sg tk price equity bp acc)
  | OpOpened tk v => record_trade_opened rm tk v
  | OpClosed env tk pnl => record_trade_closed env rm tk pnl
  | OpResume => rm_resume rm
  end.

Definition closes (t : string) (op : RmOp) : bool :=
  match op with OpClosed _ tk _ => streq tk t | _ => false end.

(** The world a [_close_position] call starts from, as a function of the
    broker answer and of what the risk manager holds. *)
Definition eng0 (pos : option Position) (act : bool) : Engine :=
  mkEngine "AAPL" [] pos (Some "2m") act 0 true false "percent" (1 # 10) 0 0.

Definition held_rm : RiskManager := record_trade_opened (rm0 cfg0) "AAPL" 10000.

Definition broker_with (close : Result (option Trade)) : Broker :=
  mkBroker (Ok acc0) (fun _ => None) (fun _ => close) (fun _ => None).

Definition is_submit (c : BrokerCall) : bool :=
  match c with CallSubmit _ => true | _ => false end.

(** The number of orders submitted among some broker calls. *)
Definition submits (cs : list BrokerCall) : nat := length (List.filter is_submit cs).

(** An Entry Arbitration where the 5m slot already holds a fresh long
    signal (posted 30 s ago) and the 2m slot now posts the same signal. *)
Definition c6_row : Row := mkRow c3_bar [("ADX_14", Some 30); ("RSI_14", Some 55)].

Definition c6_slot2 : Slot := mkSlot "2m" 2 5 None None None.
Definition c6_slot5 : Slot := mkSlot "5m" 5 3 (Some long_signal) (Some c6_row) (Some 970).

Definition c6_engine : Engine :=
  mkEngine "AAPL" [c6_slot2; c6_slot5] None None true 0 true false "percent" (1 # 10) 0 0.

Definition c6_world : World := mkWorld c6_engine (rm0 cfg0) [].

(** A broker reporting the account [acc] and filling every order in full
    at [px]. *)
Definition fill_broker (acc : Account) (px : Q) : Broker :=
  mkBroker (Ok acc)
    (fun o => Some (mkTrade (o_ticker o) (o_direction o) (inject_Z (o_quantity o)) px))
    (fun _ => Ok None) (fun _ => None).

Definition c6_after : World :=
  match post_entry_signal (fill_broker acc0 103) env0 1000 "2m" long_signal c6_row c6_world with
  | Ok (_, w') => w'
  | Raised => c6_world
  end.

Definition cfg2 : RiskConfig := mkRiskConfig 3000 15 1 5 1 0 true.

Definition rm2 : RiskManager :=
  mkRM cfg2 10000 0 0 0 0 100 false "" (<["PLTR" := 9950]> ∅).

Definition acc2 : Account := mkAccount 10000 20000 (Some 20000) false.

Definition c2_row : Row := mkRow (mkBar 870 100 101 99 100 1000) [].

Definition c2_world : World := mkWorld c6_engine rm2 [].

Definition c2_after : World :=
  match open_position_op (fill_broker acc0 103) env0 long_signal c6_row "2m" c6_world with
  | Ok (_, w') => w'
  | Raised => c6_world
  end.

Definition close_sig : Signal := mkSignal "close_long" None None None "exit".

(** The engine holding a long position, with and without the risk pause. *)
Definition c1_world (act : bool) : World :=
  mkWorld (set_slots [c6_slot2; c6_slot5] (eng0 (Some c3_position) act)) (rm0 cfg0) [].

End Scenarios.
Import Scenarios.

(* ================================================================== *)
(** * Properties *)

(** ** Arithmetic facts about the Python helpers *)

Lemma Qlt_bool_iff (a b : Q) : Qlt_bool a b = true <-> a < b.
Proof.
  unfold Qlt_bool. rewrite negb_true_iff.
  split; intro H.
  - apply Qnot_le_lt. intro H'. apply Qle_bool_iff in H'. congruence.
  - destruct (Qle_bool b a) eqn:E; [|reflexivity].
    apply Qle_bool_iff in E. exfalso. apply (Qlt_not_le _ _ H E).
Qed.

Lemma Qlt_bool_false (a b : Q) : Qlt_bool a b = false <-> b <= a.
Proof.
  unfold Qlt_bool. rewrite negb_false_iff. apply Qle_bool_iff.
Qed.

Ltac qbool :=
  repeat match goal with
  | H : Qlt_bool _ _ = true |- _ => apply Qlt_bool_iff in H
  | H : Qlt_bool _ _ = false |- _ => apply Qlt_bool_false in H
  | H : Qle_bool _ _ = true |- _ => apply Qle_bool_iff in H
  | H : Qle_bool _ _ = false |- _ =>
      let H' := fresh in
      assert (H' : ~ (_ <= _)) by (intro H'; apply Qle_bool_iff in H'; congruence);
      clear H; apply Qnot_le_lt in H'
  end.

Lemma py_max_ge_l (a b : Q) : a <= py_max a b.
Proof.
  unfold py_max. destruct (Qlt_bool a b) eqn:E; qbool.
  - apply Qlt_le_weak; assumption.
  - apply Qle_refl.
Qed.

Lemma py_max_ge_r (a b : Q) : b <= py_max a b.
Proof.
  unfold py_max. destruct (Qlt_bool a b) eqn:E; qbool; [apply Qle_refl | assumption].
Qed.

Lemma py_max_mono_r (a b c : Q) : b <= c -> py_max a b <= py_max a c.
Proof.
  intro H. unfold py_max at 1.
  destruct (Qlt_bool a b); [apply (Qle_trans _ _ _ H), py_max_ge_r | apply py_max_ge_l].
Qed.

Lemma py_min_le_l (a b : Q) : py_min a b <= a.
Proof.
  unfold py_min. destruct (Qlt_bool b a) eqn:E; qbool; [apply Qlt_le_weak; assumption | apply Qle_refl].
Qed.

Lemma py_min_le_r (a b : Q) : py_min a b <= b.
Proof.
  unfold py_min. destruct (Qlt_bool b a) eqn:E; qbool; [apply Qle_refl | assumption].
Qed.

Lemma py_min_mono_r (a b c : Q) : c <= b -> py_min a c <= py_min a b.
Proof.
  intro H. unfold py_min at 2.
  destruct (Qlt_bool b a); [apply (Qle_trans _ _ _ (py_min_le_r a c) H) | apply py_min_le_l].
Qed.

(** ** Position: the effective stop only tightens *)

Lemma update_trailing_stop_direction (p : Position) (c : Q) :
  direction (update_trailing_stop p c) = direction p.
Proof.
  unfold update_trailing_stop.
  destruct (trailing_stop_distance p); [|reflexivity].
  destruct (streq (direction p) "long"), (trailing_stop p);
    try destruct (Qlt_bool _ _); reflexivity.
Qed.

Lemma update_trailing_stop_trade (p : Position) (c : Q) :
  trade (update_trailing_stop p c) = trade p.
Proof.
  unfold update_trailing_stop.
  destruct (trailing_stop_distance p); [|reflexivity].
  destruct (streq (direction p) "long"), (trailing_stop p);
    try destruct (Qlt_bool _ _); reflexivity.
Qed.

Lemma update_trailing_stops_direction (p : Position) (ps : list Q) :
  direction (update_trailing_stops p ps) = direction p.
Proof.
  revert p. induction ps as [|c ps IH]; intro p; [reflexivity|].
  simpl. rewrite IH. apply update_trailing_stop_direction.
Qed.

Lemma stop_le_long_trans (a b c : option Q) :
  stop_le_long a b -> stop_le_long b c -> stop_le_long a c.
Proof.
  destruct a, b, c; simpl; try tauto. apply Qle_trans.
Qed.

Lemma stop_ge_short_trans (a b c : option Q) :
  stop_ge_short a b -> stop_ge_short b c -> stop_ge_short a c.
Proof.
  destruct a, b, c; simpl; try tauto. intros H1 H2. eapply Qle_trans; eassumption.
Qed.

Lemma stop_le_long_refl (a : option Q) : stop_le_long a a.
Proof. destruct a; simpl; [apply Qle_refl | exact I]. Qed.

Lemma stop_ge_short_refl (a : option Q) : stop_ge_short a a.
Proof. destruct a; simpl; [apply Qle_refl | exact I]. Qed.

Lemma py_or_none_l (b : option Q) : py_or None b = b.
Proof. reflexivity. Qed.

Lemma effective_stop_step_long (p : Position) (c : Q) :
  direction p = "long" ->
  stop_le_long (get_effective_stop p) (get_effective_stop (update_trailing_stop p c)).
Proof.
  destruct p as [[tk dir q ep] sl tp ts [d|]]; unfold direction; simpl; intro Hd; subst dir;
    [|apply stop_le_long_refl].
  unfold update_trailing_stop, get_effective_stop, set_trailing_stop, direction; simpl.
  destruct ts as [t|].
  - destruct (Qlt_bool t (c - d)) eqn:E; simpl; [|apply stop_le_long_refl].
    qbool. destruct sl as [s|]; simpl.
    + apply py_max_mono_r, Qlt_le_weak; assumption.
    + unfold py_or; simpl. apply Qlt_le_weak; assumption.
  - destruct sl as [s|]; simpl; [|exact I].
    unfold py_or. destruct (py_truthy (Some s)); simpl; [apply py_max_ge_l | exact I].
Qed.

Lemma effective_stop_step_short (p : Position) (c : Q) :
  direction p = "short" ->
  stop_ge_short (get_effective_stop p) (get_effective_stop (update_trailing_stop p c)).
Proof.
  destruct p as [[tk dir q ep] sl tp ts [d|]]; unfold direction; simpl; intro Hd; subst dir;
    [|apply stop_ge_short_refl].
  unfold update_trailing_stop, get_effective_stop, set_trailing_stop, direction; simpl.
  destruct ts as [t|].
  - destruct (Qlt_bool (c + d) t) eqn:E; simpl; [|apply stop_ge_short_refl].
    qbool. destruct sl as [s|]; simpl.
    + apply py_min_mono_r, Qlt_le_weak; assumption.
    + unfold py_or; simpl. apply Qlt_le_weak; assumption.
  - destruct sl as [s|]; simpl; [|exact I].
    unfold py_or. destruct (py_truthy (Some s)); simpl; [apply py_min_le_l | exact I].
Qed.

Lemma update_trailing_stops_app (p : Position) (ps1 ps2 : list Q) :
  update_trailing_stops p (ps1 ++ ps2) = update_trailing_stops (update_trailing_stops p ps1) ps2.
Proof.
  revert p. induction ps1 as [|c ps1 IH]; intro p; [reflexivity|]. apply IH.
Qed.

Lemma effective_stop_run_long (p : Position) (ps : list Q) :
  direction p = "long" ->
  stop_le_long (get_effective_stop p) (get_effective_stop (update_trailing_stops p ps)).
Proof.
  revert p. induction ps as [|c ps IH]; intros p Hd; simpl; [apply stop_le_long_refl|].
  eapply stop_le_long_trans; [apply effective_stop_step_long; exact Hd|].
  apply IH. rewrite update_trailing_stop_direction. exact Hd.
Qed.

Lemma effective_stop_run_short (p : Position) (ps : list Q) :
  direction p = "short" ->
  stop_ge_short (get_effective_stop p) (get_effective_stop (update_trailing_stops p ps)).
Proof.
  revert p. induction ps as [|c ps IH]; intros p Hd; simpl; [apply stop_ge_short_refl|].
  eapply stop_ge_short_trans; [apply effective_stop_step_short; exact Hd|].
  apply IH. rewrite update_trailing_stop_direction. exact Hd.
Qed.

(** C8: over any sequence of [update_trailing_stop] calls, the effective
    stop of a long position never decreases and that of a short position
    never increases: between any earlier point (after the prices [ps1])
    and any later point (after [ps1 ++ ps2]) the level only tightens, a
    missing stop counting as the loosest level. *)
Theorem C8_effective_stop_monotone (p : Position) (ps1 ps2 : list Q) :
  (direction p = "long" ->
   stop_le_long (get_effective_stop (update_trailing_stops p ps1))
                (get_effective_stop (update_trailing_stops p (ps1 ++ ps2)))) /\
  (direction p = "short" ->
   stop_ge_short (get_effective_stop (update_trailing_stops p ps1))
                 (get_effective_stop (update_trailing_stops p (ps1 ++ ps2)))).
Proof.
  rewrite update_trailing_stops_app. split; intro Hd.
  - apply effective_stop_run_long. rewrite update_trailing_stops_direction. exact Hd.
  - apply effective_stop_run_short. rewrite update_trailing_stops_direction. exact Hd.
Qed.

Lemma C8_witness :
  direction c8_long = "long" /\
  stop_le_long (get_effective_stop (update_trailing_stops c8_long [101; 103]))
               (get_effective_stop (update_trailing_stops c8_long ([101; 103] ++ [99; 104]))).
Proof.
  split; [reflexivity|].
  apply (proj1 (C8_effective_stop_monotone c8_long [101; 103] [99; 104])). reflexivity.
Defined.

(** The live engine's [_check_stops] takes the stop whenever it is hit. *)
Lemma check_stops_reason_stop_first (p : Position) (row : Bar) :
  is_stop_hit p (b_low row) (b_high row) = true ->
  check_stops_reason p row = Some "stop_loss".
Proof. intro H. unfold check_stops_reason. rewrite H. reflexivity. Qed.

(** C3 (code defect): for the long position entry 100, stop 98, target
    104 and the bar open 103.5, high 105, low 97, both the stop and the
    target are hit and the target (distance 0.5 from the open) is closer
    than the stop (distance 5.5); the backtester's [_resolve_both_hit]
    exits at the target, while the live engine's [_check_stops] exits at
    the stop. *)
Theorem C3_check_stops_ignores_open :
  is_stop_hit c3_position (b_low c3_bar) (b_high c3_bar) = true /\
  is_target_hit c3_position (b_low c3_bar) (b_high c3_bar) = true /\
  Qabs (b_open c3_bar - 104) < Qabs (b_open c3_bar - 98) /\
  check_stops_and_targets c3_position c3_bar = Some (Some 104, "take_profit") /\
  check_stops_reason c3_position c3_bar = Some "stop_loss".
Proof. vm_compute. repeat split; reflexivity. Qed.

(** ** Reconciler *)

Lemma streq_iff (a b : string) : streq a b = true <-> a = b.
Proof. apply String.eqb_eq. Qed.

Lemma streq_refl (a : string) : streq a a = true.
Proof. apply streq_iff. reflexivity. Qed.

Section ReconcileProofs.
Import Reconciler Engine.

(** C9: one reconciliation pass of the engine classifies the pair (local
    position, broker position) as the code's dicts say it: both empty is
    the agreed flat case ([match], action ["none"]); both present with the
    same direction and quantities closer than 0.01 is the agreed match
    ([match], ["none"]); both present otherwise is ["mismatch"] and the
    local position is left as it was; only the broker's is ["adopt_broker"],
    and the engine then holds a Position built from the broker's side,
    quantity and average price with no stop loss and no take profit; only
    the local one is ["clear_local"], and the engine drops it. *)
Theorem C9_reconcile_classification (b : Broker) (w : World) :
  exists r w', reconcile_op b w = Ok (r, w') /\
  match position (eng w), get_position b (ticker (eng w)) with
  | None, None =>
      r_match r = true /\ r_action r = "none" /\ position (eng w') = None
  | Some l, Some bp =>
      (direction l = side bp /\ Qabs (quantity l - qty bp) < 1 # 100 ->
       r_match r = true /\ r_action r = "none" /\ position (eng w') = Some l) /\
      (~ (direction l = side bp /\ Qabs (quantity l - qty bp) < 1 # 100) ->
       r_match r = false /\ r_action r = "mismatch" /\ position (eng w') = Some l)
  | None, Some bp =>
      r_match r = false /\ r_action r = "adopt_broker" /\
      exists p, position (eng w') = Some p /\ direction p = side bp /\
                quantity p = qty bp /\ entry_price p = avg_price bp /\
                stop_loss p = None /\ take_profit p = None
  | Some l, None =>
      r_match r = false /\ r_action r = "clear_local" /\ position (eng w') = None
  end.
Proof.
  destruct w as [e rm cs].
  unfold reconcile_op, bind, get, log_call, ret.
  cbn [eng rmgr calls].
  destruct (position e) as [l|] eqn:Hp, (get_position b (ticker e)) as [bp|] eqn:Hb;
    unfold reconcile.
  - destruct (streq (direction l) (side bp)) eqn:Ed;
      destruct (Qlt_bool (Qabs (quantity l - qty bp)) (1 # 100)) eqn:Eq; simpl;
      (eexists; eexists; split; [reflexivity|]);
      simpl; rewrite ?Hp;
      (split; intro H); qbool;
      try (repeat split; reflexivity);
      exfalso;
      try (destruct H as [H1 H2]; apply streq_iff in H1; congruence);
      try (destruct H as [H1 H2]; apply (Qlt_not_le _ _ H2); assumption);
      apply H; split; [apply streq_iff; assumption | assumption].
  - eexists; eexists; split; [reflexivity|]. simpl. rewrite ?Hp. repeat split; reflexivity.
  - eexists; eexists; split; [reflexivity|]. simpl.
    repeat split; eexists; repeat split; reflexivity.
  - eexists; eexists; split; [reflexivity|]. simpl. rewrite Hp. repeat split; reflexivity.
Qed.

End ReconcileProofs.

(** ** Bar aggregator *)

Module AggregatorProofs.
Import Aggregator AggregatorInv.

Lemma max_high_spec (rest : list Bar) (acc : Q) :
  acc <= fold_left (fun m b => if Qlt_bool m (b_high b) then b_high b else m) rest acc /\
  (forall b, In b rest ->
     b_high b <= fold_left (fun m b => if Qlt_bool m (b_high b) then b_high b else m) rest acc) /\
  In (fold_left (fun m b => if Qlt_bool m (b_high b) then b_high b else m) rest acc)
     (acc :: map b_high rest).
Proof.
  revert acc. induction rest as [|x rest IH]; intro acc; simpl.
  - split; [apply Qle_refl|]. split; [tauto|]. left; reflexivity.
  - destruct (Qlt_bool acc (b_high x)) eqn:E; qbool.
    + destruct (IH (b_high x)) as (H1 & H2 & H3).
      split; [apply Qlt_le_weak in E; eapply Qle_trans; eassumption|].
      split; [intros b [<-|Hb]; [assumption | apply H2; assumption]|].
      destruct H3 as [H3|H3]; [right; left; assumption | right; right; assumption].
    + destruct (IH acc) as (H1 & H2 & H3).
      split; [assumption|].
      split; [intros b [<-|Hb]; [eapply Qle_trans; eassumption | apply H2; assumption]|].
      destruct H3 as [H3|H3]; [left; assumption | right; right; assumption].
Qed.

Lemma min_low_spec (rest : list Bar) (acc : Q) :
  fold_left (fun m b => if Qlt_bool (b_low b) m then b_low b else m) rest acc <= acc /\
  (forall b, In b rest ->
     fold_left (fun m b => if Qlt_bool (b_low b) m then b_low b else m) rest acc <= b_low b) /\
  In (fold_left (fun m b => if Qlt_bool (b_low b) m then b_low b else m) rest acc)
     (acc :: map b_low rest).
Proof.
  revert acc. induction rest as [|x rest IH]; intro acc; simpl.
  - split; [apply Qle_refl|]. split; [tauto|]. left; reflexivity.
  - destruct (Qlt_bool (b_low x) acc) eqn:E; qbool.
    + destruct (IH (b_low x)) as (H1 & H2 & H3).
      split; [apply Qlt_le_weak in E; eapply Qle_trans; eassumption|].
      split; [intros b [<-|Hb]; [assumption | apply H2; assumption]|].
      destruct H3 as [H3|H3]; [right; left; assumption | right; right; assumption].
    + destruct (IH acc) as (H1 & H2 & H3).
      split; [assumption|].
      split; [intros b [<-|Hb]; [eapply Qle_trans; eassumption | apply H2; assumption]|].
      destruct H3 as [H3|H3]; [left; assumption | right; right; assumption].
Qed.

Lemma aggregate_fields (b0 : Bar) (rest : list Bar) (ws : Z) :
  let agg := aggregate b0 rest ws in
  b_ts agg = ws /\ b_open agg = b_open b0 /\
  b_close agg = b_close (List.last (b0 :: rest) b0) /\
  (forall b, In b (b0 :: rest) -> b_high b <= b_high agg) /\
  In (b_high agg) (map b_high (b0 :: rest)) /\
  (forall b, In b (b0 :: rest) -> b_low agg <= b_low b) /\
  In (b_low agg) (map b_low (b0 :: rest)) /\
  b_volume agg = sum_volume (b0 :: rest).
Proof.
  simpl. unfold max_high, min_low.
  destruct (max_high_spec rest (b_high b0)) as (H1 & H2 & H3).
  destruct (min_low_spec rest (b_low b0)) as (L1 & L2 & L3).
  repeat split; try assumption.
  - intros b [<-|Hb]; [assumption | apply H2; assumption].
  - intros b [<-|Hb]; [assumption | apply L2; assumption].
Qed.

Lemma window_start_floor (N ts : Z) :
  (0 < N)%Z -> (N | 60)%Z -> get_window_start N ts = (ts / N * N)%Z.
Proof.
  intros HN [k Hk]. unfold get_window_start, minute.
  assert (Hts : ts = (60 * (ts / 60) + ts mod 60)%Z) by (apply Z.div_mod; lia).
  set (q := (ts / 60)%Z) in *. set (r := (ts mod 60)%Z) in *. clearbody q r.
  subst ts. rewrite Hk.
  replace (k * N * q + r)%Z with (r + (k * q) * N)%Z by ring.
  rewrite Z.div_add by lia. ring.
Qed.

(** *** Python dicts *)

Lemma dict_lookup_empty {V} (k : string) : (∅ : pydict V) !! k = None.
Proof. change ((∅ : gmap string V) !! k = None). apply lookup_empty. Qed.

Lemma dict_lookup_insert {V} (d : pydict V) (i j : string) (x : V) :
  <[i := x]> d !! j = if decide (i = j) then Some x else d !! j.
Proof.
  change (<[i := x]> (d_map d) !! j = if decide (i = j) then Some x else d_map d !! j).
  apply lookup_insert.
Qed.

Lemma dict_lookup_insert_eq {V} (d : pydict V) (i : string) (x : V) :
  <[i := x]> d !! i = Some x.
Proof. rewrite dict_lookup_insert. case_decide; [reflexivity | congruence]. Qed.

Lemma dict_lookup_insert_ne {V} (d : pydict V) (i j : string) (x : V) :
  i <> j -> <[i := x]> d !! j = d !! j.
Proof. intros H. rewrite dict_lookup_insert. case_decide; [congruence | reflexivity]. Qed.

Lemma dict_keys_insert_present {V} (d : pydict V) (k : string) (x : V) :
  is_Some (d !! k) -> d_keys (<[k := x]> d) = d_keys d.
Proof.
  intros [v Hv]. change (match d_map d !! k with Some _ => d_keys d | None => d_keys d ++ [k] end
                         = d_keys d).
  change (d_map d !! k = Some v) in Hv. rewrite Hv. reflexivity.
Qed.

Lemma dict_lookup_alter {V} (f : V -> V) (d : pydict V) (i j : string) :
  alter f i d !! j = if decide (i = j) then f <$> d !! j else d !! j.
Proof.
  change (alter f i (d_map d) !! j = if decide (i = j) then f <$> d_map d !! j else d_map d !! j).
  case_decide; [subst; apply lookup_alter_eq | apply lookup_alter_ne; assumption].
Qed.

Lemma dict_lookup_fmap {V W} (f : V -> W) (d : pydict V) (k : string) :
  (f <$> d) !! k = f <$> d !! k.
Proof. change ((f <$> d_map d) !! k = f <$> d_map d !! k). apply lookup_fmap. Qed.

Lemma dict_eq {V} (d1 d2 : pydict V) :
  (forall k, d1 !! k = d2 !! k) -> d_keys d1 = d_keys d2 -> d1 = d2.
Proof.
  destruct d1 as [m1 ks1], d2 as [m2 ks2]. intros Hm Hk. simpl in Hk. subst ks2.
  f_equal. apply map_eq. exact Hm.
Qed.

Lemma dict_wf_empty {V} : dict_wf (∅ : pydict V).
Proof.
  split; [constructor|]. intros k. simpl. rewrite lookup_empty.
  split; [intros H; apply not_elem_of_nil in H; contradiction | intros [v Hv]; discriminate].
Qed.

Lemma dict_wf_insert {V} (d : pydict V) (k : string) (x : V) :
  dict_wf d -> dict_wf (<[k := x]> d).
Proof.
  destruct d as [m ks]. intros [Hnd Hin].
  change (dict_wf (mkDict (<[k := x]> m)
                         (match m !! k with Some _ => ks | None => ks ++ [k] end))).
  unfold dict_wf. cbn [d_map d_keys] in *. split.
  - destruct (m !! k) eqn:E; [exact Hnd|].
    apply NoDup_app. split; [exact Hnd|]. split; [|apply NoDup_singleton].
    intros y Hy Hy'. apply list_elem_of_singleton in Hy'. subst y.
    apply Hin in Hy. rewrite E in Hy. destruct Hy as [? Hy]. discriminate.
  - intros j. rewrite lookup_insert. case_decide as Hkj.
    + subst j. split; [intros _; eexists; reflexivity|]. intros _.
      destruct (m !! k) eqn:E.
      * apply Hin. rewrite E. eexists; reflexivity.
      * apply elem_of_app. right. apply list_elem_of_singleton. reflexivity.
    + rewrite <- Hin. destruct (m !! k); [reflexivity|].
      rewrite elem_of_app, list_elem_of_singleton. split; [|tauto].
      intros [H|H]; [exact H | congruence].
Qed.

(** *** Emitted bars are the aggregates of consecutive received bars *)

Lemma flat_groups_of (l : list Bar) : flat_map group_bars (groups_of l) = l.
Proof. destruct l; simpl; [reflexivity | rewrite app_nil_r; reflexivity]. Qed.

Lemma emitted_app (t : string) (o1 o2 : list (string * Bar)) :
  emitted t (o1 ++ o2) = emitted t o1 ++ emitted t o2.
Proof.
  unfold emitted. induction o1 as [|o o1 IH]; simpl; [reflexivity|].
  destruct (streq o.1 t); simpl; rewrite IH; reflexivity.
Qed.

Lemma emitted_emit_buf_other (t t' : string) (buf : Buf) :
  t' <> t -> emitted t (emit_buf t' buf) = [].
Proof.
  intros Hne. unfold emit_buf, emitted. destruct (bars buf); [reflexivity|]. simpl.
  destruct (streq t' t) eqn:E; [apply streq_iff in E; contradiction | reflexivity].
Qed.

Lemma emit_buf_groups (N : Z) (t : string) (buf : Buf) :
  Forall (fun b => get_window_start N (b_ts b) = window_start buf) (bars buf) ->
  Forall2 (agg_of N) (groups_of (bars buf)) (emitted t (emit_buf t buf)).
Proof.
  intros Hw. unfold emit_buf, emitted. destruct (bars buf) as [|b0 rest]; simpl; [constructor|].
  rewrite streq_refl. simpl. constructor; [|constructor].
  split; [reflexivity | exact Hw].
Qed.

Lemma pending_insert_eq (t : string) (bufs : Buffers) (buf : Buf) :
  pending t (<[t := buf]> bufs) = bars buf.
Proof. unfold pending. rewrite dict_lookup_insert_eq. reflexivity. Qed.

Lemma pending_insert_ne (t t' : string) (bufs : Buffers) (buf : Buf) :
  t' <> t -> pending t (<[t' := buf]> bufs) = pending t bufs.
Proof. intros H. unfold pending. rewrite dict_lookup_insert_ne by exact H. reflexivity. Qed.

Lemma win_ok_insert_eq (N : Z) (t : string) (bufs : Buffers) (buf : Buf) :
  Forall (fun b => get_window_start N (b_ts b) = window_start buf) (bars buf) ->
  win_ok N t (<[t := buf]> bufs).
Proof. intros H buf' E. rewrite dict_lookup_insert_eq in E. injection E as <-. exact H. Qed.

Lemma win_ok_insert_ne (N : Z) (t t' : string) (bufs : Buffers) (buf : Buf) :
  t' <> t -> win_ok N t bufs -> win_ok N t (<[t' := buf]> bufs).
Proof. intros Hne H buf' E. rewrite dict_lookup_insert_ne in E by exact Hne. apply H, E. Qed.

Lemma on_minute_bar_groups (N : Z) (bufs : Buffers) (t t' : string) (b : Bar) :
  (1 < N)%Z -> win_ok N t bufs ->
  win_ok N t (fst (on_minute_bar N bufs t' b)) /\
  exists gs,
    pending t bufs ++ (if streq t' t then [b] else []) =
      flat_map group_bars gs ++ pending t (fst (on_minute_bar N bufs t' b)) /\
    Forall2 (agg_of N) gs (emitted t (snd (on_minute_bar N bufs t' b))).
Proof.
  intros HN HW. unfold on_minute_bar.
  destruct (Z.eqb_spec N 1) as [->|_]; [lia|]. cbv zeta.
  set (ws := get_window_start N (b_ts b)).
  set (buf0 := match bufs !! t' with Some b => b | None => mkBuf ws [] end).
  destruct (streq t' t) eqn:Et.
  - apply streq_iff in Et. subst t'.
    assert (Hw0 : Forall (fun x => get_window_start N (b_ts x) = window_start buf0) (bars buf0)).
    { subst buf0. destruct (bufs !! t) eqn:E; [apply HW; exact E | constructor]. }
    assert (Hp0 : pending t bufs = bars buf0).
    { subst buf0. unfold pending. destruct (bufs !! t); reflexivity. }
    rewrite Hp0. clearbody buf0.
    destruct (Z.eqb_spec ws (window_start buf0)) as [Heq|Hne];
      destruct (Z.leb N (minute (b_ts b) mod N + 1)); cbn [fst snd window_start bars].
    + assert (Hw : Forall (fun x => get_window_start N (b_ts x) = window_start buf0)
                          (bars buf0 ++ [b])).
      { apply Forall_app. split; [exact Hw0 | constructor; [exact Heq | constructor]]. }
      split; [apply win_ok_insert_eq; constructor|].
      exists (groups_of (bars buf0 ++ [b])).
      rewrite pending_insert_eq, flat_groups_of. cbn [bars]. split; [rewrite app_nil_r; reflexivity|].
      exact (emit_buf_groups N t (mkBuf (window_start buf0) (bars buf0 ++ [b])) Hw).
    + split.
      { apply win_ok_insert_eq. cbn [bars window_start]. apply Forall_app.
        split; [exact Hw0 | constructor; [exact Heq | constructor]]. }
      exists []. rewrite pending_insert_eq. split; [reflexivity | constructor].
    + split; [apply win_ok_insert_eq; constructor|].
      exists (groups_of (bars buf0) ++ groups_of [b]).
      rewrite pending_insert_eq, flat_map_app, !flat_groups_of, emitted_app. cbn [bars].
      split; [rewrite app_nil_r; reflexivity|].
      apply Forall2_app; [apply emit_buf_groups; exact Hw0|].
      apply (emit_buf_groups N t (mkBuf ws ([] ++ [b]))). constructor; [reflexivity | constructor].
    + split.
      { apply win_ok_insert_eq. constructor; [reflexivity | constructor]. }
      exists (groups_of (bars buf0)).
      rewrite pending_insert_eq, flat_groups_of. cbn [bars].
      split; [reflexivity | apply emit_buf_groups; exact Hw0].
  - assert (Hne : t' <> t) by (intros ->; rewrite streq_refl in Et; discriminate).
    destruct (Z.eqb ws (window_start buf0)); destruct (Z.leb N (minute (b_ts b) mod N + 1));
      cbn [fst snd window_start bars];
      (split; [apply win_ok_insert_ne; assumption|]);
      exists []; rewrite pending_insert_ne by exact Hne;
      rewrite ?emitted_app, ?emitted_emit_buf_other by exact Hne;
      (split; [rewrite app_nil_r; reflexivity | constructor]).
Qed.

Lemma flush_fold_groups (N : Z) (t : string) (ks : list string) (bs : Buffers)
    (out : list (string * Bar)) :
  win_ok N t bs ->
  win_ok N t (fold_left flush_step ks (bs, out)).1 /\
  exists gs o2,
    (fold_left flush_step ks (bs, out)).2 = out ++ o2 /\
    pending t bs = flat_map group_bars gs ++ pending t (fold_left flush_step ks (bs, out)).1 /\
    Forall2 (agg_of N) gs (emitted t o2).
Proof.
  revert bs out. induction ks as [|k ks IH]; intros bs out HW; cbn [fold_left].
  { split; [exact HW|]. exists [], []. split; [rewrite app_nil_r; reflexivity|].
    split; [reflexivity | constructor]. }
  assert (Hs : flush_step (bs, out) k =
                match bs !! k with
                | Some buf =>
                    match bars buf with
                    | [] => (bs, out)
                    | _ => (<[k := mkBuf (window_start buf) []]> bs, out ++ emit_buf k buf)
                    end
                | None => (bs, out)
                end) by reflexivity.
  rewrite Hs. clear Hs.
  destruct (bs !! k) as [buf|] eqn:E; [destruct (bars buf) as [|x xs] eqn:Eb|];
    try (apply IH; exact HW).
  destruct (decide (k = t)) as [->|Hne].
  - destruct (IH (<[t := mkBuf (window_start buf) []]> bs) (out ++ emit_buf t buf))
      as [H1 (gs & o2 & H2 & H3 & H4)]; [apply win_ok_insert_eq; constructor|].
    split; [exact H1|].
    exists (groups_of (bars buf) ++ gs), (emit_buf t buf ++ o2).
    split; [rewrite H2, app_assoc; reflexivity|].
    rewrite pending_insert_eq in H3. cbn [bars] in H3.
    split.
    + unfold pending at 1. rewrite E, flat_map_app, flat_groups_of, <- app_assoc, <- H3.
      rewrite app_nil_r. reflexivity.
    + rewrite emitted_app. apply Forall2_app; [|exact H4].
      apply emit_buf_groups. apply HW. exact E.
  - destruct (IH (<[k := mkBuf (window_start buf) []]> bs) (out ++ emit_buf k buf))
      as [H1 (gs & o2 & H2 & H3 & H4)]; [apply win_ok_insert_ne; assumption|].
    split; [exact H1|].
    exists gs, (emit_buf k buf ++ o2).
    split; [rewrite H2, app_assoc; reflexivity|].
    rewrite pending_insert_ne in H3 by exact Hne.
    split; [exact H3|].
    rewrite emitted_app, emitted_emit_buf_other by exact Hne. exact H4.
Qed.

Lemma arrived_cons (t : string) (e : Event) (es : list Event) :
  arrived t (e :: es) = arrived t [e] ++ arrived t es.
Proof. simpl. rewrite app_nil_r. reflexivity. Qed.

Lemma step_groups (N : Z) (bufs : Buffers) (t : string) (e : Event) :
  (1 < N)%Z -> win_ok N t bufs ->
  win_ok N t (fst (step N bufs e)) /\
  exists gs,
    pending t bufs ++ arrived t [e] = flat_map group_bars gs ++ pending t (fst (step N bufs e)) /\
    Forall2 (agg_of N) gs (emitted t (snd (step N bufs e))).
Proof.
  intros HN HW. destruct e as [t' b | tk]; simpl step.
  - destruct (on_minute_bar_groups N bufs t t' b HN HW) as [H1 (gs & H2 & H3)].
    split; [exact H1|]. exists gs. split; [|exact H3].
    rewrite <- H2. simpl. rewrite app_nil_r. reflexivity.
  - unfold flush.
    destruct (flush_fold_groups N t
                (match tk with
                 | Some t0 => if streq t0 "" then d_keys bufs else [t0]
                 | None => d_keys bufs
                 end) bufs [] HW) as [H1 (gs & o2 & H2 & H3 & H4)].
    split; [exact H1|]. exists gs. rewrite H2. simpl. rewrite app_nil_r.
    split; [exact H3 | exact H4].
Qed.

Lemma run_groups (N : Z) (t : string) (es : list Event) (bufs : Buffers) :
  (1 < N)%Z -> win_ok N t bufs ->
  exists gs,
    pending t bufs ++ arrived t es = flat_map group_bars gs ++ pending t (fst (run N bufs es)) /\
    Forall2 (agg_of N) gs (emitted t (snd (run N bufs es))).
Proof.
  intros HN. revert bufs. induction es as [|e es IH]; intros bufs HW.
  - exists []. simpl. split; [rewrite app_nil_r; reflexivity | constructor].
  - destruct (step_groups N bufs t e HN HW) as [H1 (gs1 & H2 & H3)].
    cbn [run]. destruct (step N bufs e) as [b1 o1] eqn:E1. cbn [fst snd] in H1, H2, H3.
    destruct (IH b1 H1) as (gs2 & H4 & H5).
    destruct (run N b1 es) as [b2 o2] eqn:E2. cbn [fst snd] in H4, H5 |- *.
    exists (gs1 ++ gs2). split.
    + rewrite arrived_cons, app_assoc, H2, <- app_assoc, H4, flat_map_app, app_assoc.
      reflexivity.
    + rewrite emitted_app. apply Forall2_app; assumption.
Qed.

(** C5: in a run of the aggregator from empty buffers with [N > 1], the
    1-minute bars received for each ticker, in arrival order, split into
    consecutive non-empty groups followed by the bars its buffer still
    holds, and the bars emitted for that ticker are, one for one and in
    order, the aggregates of those groups: each group lies in one window,
    and its bar is stamped with that window's clock-aligned start (which is
    [floor(ts / N) * N] when [N] divides 60, the supported timeframes), has
    the group's first open, its last close, its largest high, its smallest
    low and the sum of its volumes.  With [N = 1] each bar is passed to the
    callback unchanged. *)
Theorem C5_aggregated_bar (N : Z) (es : list Event) :
  (forall bufs t b, on_minute_bar 1 bufs t b = (bufs, [(t, b)])) /\
  ((1 < N)%Z -> forall t,
   exists groups : list (Bar * list Bar),
     arrived t es = flat_map group_bars groups ++ pending t (fst (run N ∅ es)) /\
     Forall2 (fun g agg =>
       Forall (fun b => get_window_start N (b_ts b) = b_ts agg) (group_bars g) /\
       ((N | 60)%Z -> forall b, In b (group_bars g) -> b_ts agg = (b_ts b / N * N)%Z) /\
       b_open agg = b_open g.1 /\
       b_close agg = b_close (List.last (group_bars g) g.1) /\
       (forall b, In b (group_bars g) -> b_high b <= b_high agg) /\
       In (b_high agg) (map b_high (group_bars g)) /\
       (forall b, In b (group_bars g) -> b_low agg <= b_low b) /\
       In (b_low agg) (map b_low (group_bars g)) /\
       b_volume agg = sum_volume (group_bars g))
     groups (emitted t (snd (run N ∅ es)))).
Proof.
  split; [reflexivity|].
  intros HN t.
  destruct (run_groups N t es ∅ HN) as (gs & H1 & H2).
  { intros buf E. rewrite dict_lookup_empty in E. discriminate. }
  exists gs. split.
  { rewrite <- H1. unfold pending at 1. rewrite dict_lookup_empty. reflexivity. }
  refine (Forall2_impl _ _ _ _ H2 _).
  intros [b0 rest] agg [Hagg Hw]. cbn [fst snd group_bars] in *.
  destruct (aggregate_fields b0 rest (b_ts agg)) as (F1 & F2 & F3 & F4 & F5 & F6 & F7 & F8).
  rewrite <- Hagg in F1, F2, F3, F4, F5, F6, F7, F8.
  split; [exact Hw|].
  split.
  { intros Hdiv b Hb. rewrite List.Forall_forall in Hw. rewrite <- (Hw b Hb).
    apply window_start_floor; [lia | exact Hdiv]. }
  repeat split; assumption.
Qed.

End AggregatorProofs.

Module AggregatorScenarios.
Import Aggregator AggregatorInv AggregatorProofs.

Example c5_run :
  snd (run 5 ∅ c5_events) = [("MSTR", mkBar (at1400 30) 10 12 9 11 650)].
Proof. vm_compute. reflexivity. Qed.

Lemma C5_witness :
  (1 < 5)%Z /\
  exists groups : list (Bar * list Bar),
    arrived "MSTR" c5_events =
      flat_map group_bars groups ++ pending "MSTR" (fst (run 5 ∅ c5_events)) /\
    length groups = length (emitted "MSTR" (snd (run 5 ∅ c5_events))).
Proof.
  split; [lia|].
  destruct (proj2 (C5_aggregated_bar 5 c5_events) ltac:(lia) "MSTR") as (gs & H1 & H2).
  exists gs. split; [exact H1 | exact (Forall2_length _ _ _ H2)].
Defined.

(** C4 counterexample: with [N = 5], the late 14:33 bar is buffered
    (the buffer goes back to the 14:30 window holding it) and the 14:30
    window is emitted a second time when the 14:35 bar arrives. *)
Lemma C4_late_bar_reemitted :
  (fst (run 5 ∅ c4_prefix)) !! "MSTR" = Some (mkBuf (at1400 30) [mbar 33 12 14 12 13 999]) /\
  map (fun o => b_ts (snd o)) (snd (run 5 ∅ c4_events)) = [at1400 30; at1400 30] /\
  snd (run 5 ∅ c4_events) =
    [("MSTR", mkBar (at1400 30) 10 12 9 12 1200); ("MSTR", mkBar (at1400 30) 12 14 12 13 999)].
Proof. vm_compute. repeat split; reflexivity. Qed.

(** C4 (as the code does it): with [N > 1], a bar whose window differs
    from the window its ticker's buffer targets (in particular a bar for a
    window already emitted) is not dropped: whatever the buffer holds is
    emitted first, and the buffer restarts on the bar's own window with
    this bar alone; if the bar is that window's terminal minute, the window
    is emitted again at once, aggregated from this bar only. *)
Theorem C4_late_bar_restarts_window (N : Z) (bufs : Buffers) (t : string) (b : Bar) (buf : Buf) :
  (1 < N)%Z -> bufs !! t = Some buf -> get_window_start N (b_ts b) <> window_start buf ->
  on_minute_bar N bufs t b =
    if Z.leb N (minute (b_ts b) mod N + 1)
    then (<[t := mkBuf (get_window_start N (b_ts b) + N) []]> bufs,
          emit_buf t buf ++ [(t, aggregate b [] (get_window_start N (b_ts b)))])
    else (<[t := mkBuf (get_window_start N (b_ts b)) [b]]> bufs, emit_buf t buf).
Proof.
  intros HN Hb Hne. unfold on_minute_bar. rewrite Hb.
  destruct (Z.eqb_spec N 1) as [->|_]; [lia|].
  destruct (Z.eqb_spec (get_window_start N (b_ts b)) (window_start buf)) as [E|_];
    [contradiction|].
  reflexivity.
Qed.

Lemma C4_witness :
  (1 < 5)%Z /\
  on_minute_bar 5 (<[ "MSTR" := mkBuf (at1400 35) [] ]> ∅) "MSTR" (mbar 33 12 14 12 13 999) =
    (<[ "MSTR" := mkBuf (at1400 30) [mbar 33 12 14 12 13 999] ]>
       (<[ "MSTR" := mkBuf (at1400 35) [] ]> ∅), []).
Proof.
  split; [lia|].
  rewrite (C4_late_bar_restarts_window 5 _ "MSTR" (mbar 33 12 14 12 13 999) (mkBuf (at1400 35) []));
    [reflexivity | lia | reflexivity | vm_compute; discriminate].
Defined.

End AggregatorScenarios.

(** ** Risk manager *)

Module RiskProofs.

(** C7 counterexample: with [max_daily_loss = 0] and [daily_pnl = 0] the
    condition [daily_pnl <= -max_daily_loss] holds, yet [check_new_order]
    neither pauses nor rejects: the [abs(daily_pnl) > 0] guard skips the
    daily-loss check and the order is approved. *)
Lemma C7_zero_pnl_not_paused :
  let cfg := mkRiskConfig 0 15 (9 # 10) 5 1 25000 true in
  daily_pnl (check_day_rollover env0 (rm0 cfg)) <= - max_daily_loss cfg /\
  check_new_order env0 (rm0 cfg) long_signal "MSTR" 100 60000 120000 (Some acc0)
    = (Ok (true, "approved"), rm0 cfg).
Proof. vm_compute. split; [discriminate | reflexivity]. Qed.

(** C7 (as the code does it): for an entry signal, once the day-rollover
    reset is done, if trading is not paused, the broker does not block
    trading, the equity is not under a positive PDT floor, and
    [daily_pnl] is non-zero and at most [-max_daily_loss], then
    [check_new_order] pauses trading with the daily-loss reason and rejects
    the order. *)
Theorem C7_daily_loss_pauses (env : Env) (rm : RiskManager) (signal : Signal) (tk : string)
    (price equity buying_power : Q) (account : option Account) :
  let rm1 := check_day_rollover env rm in
  is_close_kind (sig_direction signal) = false ->
  is_paused rm1 = false ->
  match account with Some a => acc_trading_blocked a = false | None => True end ->
  ~ (0 < min_equity_for_trading (config rm1) /\ equity < min_equity_for_trading (config rm1)) ->
  ~ daily_pnl rm1 == 0 ->
  daily_pnl rm1 <= - max_daily_loss (config rm1) ->
  check_new_order env rm signal tk price equity buying_power account =
    (Ok (false, "Daily loss limit hit"), rm_set_paused rm1 true "Daily loss limit hit") /\
  is_paused (rm_set_paused rm1 true "Daily loss limit hit") = true.
Proof.
  intros rm1 Hclose Hp Hblk Hmin Hnz Hle. split; [|reflexivity].
  unfold check_new_order. fold rm1. rewrite Hclose, Hp.
  assert (Hb : (match account with Some a => acc_trading_blocked a | None => false end) = false)
    by (destruct account; [exact Hblk | reflexivity]).
  rewrite Hb.
  assert (Hm : (Qlt_bool 0 (min_equity_for_trading (config rm1))
                && Qlt_bool equity (min_equity_for_trading (config rm1))) = false).
  { destruct (Qlt_bool 0 _) eqn:E1, (Qlt_bool equity _) eqn:E2; try reflexivity.
    apply Qlt_bool_iff in E1, E2. exfalso. apply Hmin. split; assumption. }
  rewrite Hm.
  assert (Hd : (Qlt_bool 0 (Qabs (daily_pnl rm1))
                && Qle_bool (daily_pnl rm1) (- max_daily_loss (config rm1))) = true).
  { apply andb_true_intro. split; [|apply Qle_bool_iff; exact Hle].
    apply Qlt_bool_iff.
    destruct (Qlt_le_dec 0 (daily_pnl rm1)) as [H|H].
    - rewrite Qabs_pos by (apply Qlt_le_weak; exact H). exact H.
    - rewrite Qabs_neg by exact H.
      destruct (Qle_lt_or_eq _ _ H) as [H'|H']; [|exfalso; apply Hnz; exact H'].
      apply Qopp_lt_compat in H'. change (- 0) with 0 in H'. exact H'. }
  rewrite Hd. unfold rm_pause. rewrite Hp. reflexivity.
Qed.

Lemma C7_witness :
  let cfg := mkRiskConfig 3000 15 (9 # 10) 5 1 25000 true in
  let rm := mkRM cfg 60000 (-3500) 2 0 2 100 false "" ∅ in
  check_new_order env0 rm long_signal "MSTR" 100 60000 120000 (Some acc0) =
    (Ok (false, "Daily loss limit hit"),
     rm_set_paused (check_day_rollover env0 rm) true "Daily loss limit hit") /\
  is_paused (rm_set_paused (check_day_rollover env0 rm) true "Daily loss limit hit") = true.
Proof.
  apply C7_daily_loss_pauses; vm_compute; try reflexivity; try discriminate.
  intros [_ H]. discriminate H.
Defined.

Lemma rollover_frame (env : Env) (rm : RiskManager) :
  open_positions (check_day_rollover env rm) = open_positions rm /\
  peak_equity (check_day_rollover env rm) = peak_equity rm.
Proof.
  unfold check_day_rollover, rm_resume, rm_set_paused.
  destruct (Z.eqb (today env) (current_date rm)); [split; reflexivity|].
  simpl. destruct (is_paused rm && contains "Daily loss" (pause_reason rm)); simpl;
    [destruct (is_paused rm)|]; split; reflexivity.
Qed.

Lemma pause_frame (rm : RiskManager) (r : string) :
  open_positions (rm_pause rm r) = open_positions rm /\ peak_equity (rm_pause rm r) = peak_equity rm.
Proof. unfold rm_pause. destruct (is_paused rm); split; reflexivity. Qed.

Lemma check_new_order_frame (env : Env) (rm : RiskManager) (sg : Signal) (tk : string)
    (price equity bp : Q) (acc : option Account) :
  let rm' := snd (check_new_order env rm sg tk price equity bp acc) in
  open_positions rm' = open_positions rm /\ peak_equity rm <= peak_equity rm'.
Proof.
  destruct (rollover_frame env rm) as [F1 F2].
  unfold check_new_order. cbv zeta.
  set (rm1 := check_day_rollover env rm) in *.
  repeat match goal with
  | |- context [if ?c then _ else _] => destruct c eqn:?
  end; simpl;
  repeat match goal with
  | |- context [rm_pause ?r ?s] =>
      destruct (pause_frame r s) as [P1 P2]; rewrite ?P1, ?P2; clear P1 P2
  end;
  unfold rm_set_peak; simpl; qbool;
  (split; [assumption || reflexivity | rewrite <- ?F2; try apply Qle_refl]);
  try (apply Qlt_le_weak; assumption).
Qed.

Lemma Qpos_neq0 (x : Q) : 0 < x -> x == 0 -> False.
Proof. intros H E. rewrite E in H. apply (Qlt_irrefl 0 H). Qed.

Lemma check_new_order_rejects_held (env : Env) (rm : RiskManager) (sg : Signal) (tk : string)
    (price equity bp : Q) (acc : option Account) :
  is_close_kind (sig_direction sg) = false ->
  is_Some (open_positions rm !! tk) ->
  0 < peak_equity rm ->
  exists r, fst (check_new_order env rm sg tk price equity bp acc) = Ok (false, r).
Proof.
  intros Hc Hin Hpk.
  destruct (rollover_frame env rm) as [F1 F2].
  rewrite <- F2 in Hpk. rewrite <- F1 in Hin.
  unfold check_new_order. cbv zeta.
  set (rm1 := check_day_rollover env rm) in *.
  rewrite Hc.
  repeat match goal with
  | |- context [if ?c then _ else _] => destruct c eqn:?
  end; simpl; try (eexists; reflexivity); exfalso;
  unfold rm_set_peak in *; simpl in *; qbool;
  try match goal with
  | H : bool_decide _ = false |- _ => apply bool_decide_eq_false in H; contradiction
  end.
  - apply Qeq_bool_iff in Heqb3. revert Heqb3. apply Qpos_neq0. eapply Qlt_trans; eassumption.
  - apply Qeq_bool_iff in Heqb3. revert Heqb3. apply Qpos_neq0. exact Hpk.
Qed.

Lemma apply_op_keeps (t : string) (rm : RiskManager) (op : RmOp) :
  closes t op = false ->
  is_Some (open_positions rm !! t) -> 0 < peak_equity rm ->
  is_Some (open_positions (apply_op rm op) !! t) /\ 0 < peak_equity (apply_op rm op).
Proof.
  intros Hc Hin Hpk. destruct op as [env sg tk price equity bp acc | tk v | env tk pnl |]; simpl.
  - destruct (check_new_order_frame env rm sg tk price equity bp acc) as [F1 F2].
    rewrite F1. split; [exact Hin | eapply Qlt_le_trans; eassumption].
  - unfold record_trade_opened; simpl. split; [|exact Hpk].
    rewrite lookup_insert. case_decide; [eexists; reflexivity | exact Hin].
  - simpl in Hc.
    destruct (rollover_frame env rm) as [F1 F2].
    unfold record_trade_closed. cbv zeta.
    set (rm1 := check_day_rollover env rm) in *.
    match goal with
    | |- context [if ?c then rm_pause ?r ?s else _] =>
        set (X := r); destruct (pause_frame X s) as [P1 P2];
        destruct (Qle_bool (daily_pnl X) _)
    end; [rewrite P1, P2|]; subst X; simpl; (split; [|rewrite F2; exact Hpk]);
    rewrite lookup_delete_ne by (intros ->; rewrite streq_refl in Hc; discriminate);
    rewrite F1; exact Hin.
  - unfold rm_resume, rm_set_paused. destruct (is_paused rm); simpl; split; assumption.
Qed.

Lemma apply_ops_keep (t : string) (ops : list RmOp) (rm : RiskManager) :
  Forall (fun op => closes t op = false) ops ->
  is_Some (open_positions rm !! t) -> 0 < peak_equity rm ->
  is_Some (open_positions (fold_left apply_op ops rm) !! t) /\
  0 < peak_equity (fold_left apply_op ops rm).
Proof.
  revert rm. induction ops as [|op ops IH]; intros rm Hall Hin Hpk; simpl; [split; assumption|].
  inversion Hall as [|? ? Hop Hrest]; subst.
  destruct (apply_op_keeps t rm op Hop Hin Hpk) as [H1 H2].
  apply IH; assumption.
Qed.

End RiskProofs.

Module EngineProofs.
Import Reconciler Engine RiskProofs.

(** C10: when the broker's [close_position] answers [None], [_close_position]
    drops the local position and its timeframe, issues exactly that one close
    call and leaves the risk manager untouched; the ticker stays in
    [open_positions] through any later risk-manager operations that do not
    close this ticker, and every later entry check for it is rejected. *)
Theorem C10_close_none_keeps_exposure (b : Broker) (env : Env) (sg : Signal) (row : Row)
    (tf : string) (w : World) (pos : Position) :
  position (eng w) = Some pos ->
  close_position b (ticker (eng w)) = Ok None ->
  exists w', close_position_op b env sg row tf w = Ok (tt, w') /\
    position (eng w') = None /\ active_tf (eng w') = None /\
    rmgr w' = rmgr w /\ calls w' = calls w ++ [CallClose (ticker (eng w))] /\
    (is_Some (open_positions (rmgr w) !! ticker (eng w)) -> 0 < peak_equity (rmgr w) ->
     forall ops, Forall (fun op => closes (ticker (eng w)) op = false) ops ->
     is_Some (open_positions (fold_left apply_op ops (rmgr w')) !! ticker (eng w)) /\
     forall env' sg' price equity bp acc,
       is_close_kind (sig_direction sg') = false ->
       exists r, fst (check_new_order env' (fold_left apply_op ops (rmgr w')) sg'
                        (ticker (eng w)) price equity bp acc) = Ok (false, r)).
Proof.
  intros Hp Hc.
  unfold close_position_op, bind, get, log_call, modify_eng, ret.
  rewrite Hp. cbn [eng rmgr calls]. rewrite Hc.
  eexists. split; [reflexivity|]. cbn [eng rmgr calls].
  split; [reflexivity|]. split; [reflexivity|]. split; [reflexivity|].
  split; [reflexivity|].
  intros Hin Hpk ops Hops.
  destruct (apply_ops_keep (ticker (eng w)) ops (rmgr w) Hops Hin Hpk) as [K1 K2].
  split; [exact K1|].
  intros env' sg' price equity bp acc Hck.
  apply check_new_order_rejects_held; assumption.
Qed.

Lemma C10_witness :
  position (eng (mkWorld (eng0 (Some c3_position) true) held_rm [])) = Some c3_position /\
  close_position (broker_with (Ok None)) "AAPL" = Ok None /\
  exists w', close_position_op (broker_with (Ok None)) env0 long_signal
               (mkRow c3_bar []) "2m" (mkWorld (eng0 (Some c3_position) true) held_rm [])
             = Ok (tt, w') /\
    position (eng w') = None /\ active_tf (eng w') = None /\
    rmgr w' = held_rm /\ calls w' = [CallClose "AAPL"] /\
    (is_Some (open_positions held_rm !! "AAPL") -> 0 < peak_equity held_rm ->
     forall ops, Forall (fun op => closes "AAPL" op = false) ops ->
     is_Some (open_positions (fold_left apply_op ops (rmgr w')) !! "AAPL") /\
     forall env' sg' price equity bp acc,
       is_close_kind (sig_direction sg') = false ->
       exists r, fst (check_new_order env' (fold_left apply_op ops (rmgr w')) sg'
                        "AAPL" price equity bp acc) = Ok (false, r)).
Proof.
  split; [reflexivity|]. split; [reflexivity|].
  exact (C10_close_none_keeps_exposure (broker_with (Ok None)) env0 long_signal
           (mkRow c3_bar []) "2m" (mkWorld (eng0 (Some c3_position) true) held_rm [])
           c3_position eq_refl eq_refl).
Defined.

Lemma calculate_quantity_frame (b : Broker) (price : Q) (sg : Signal) (acc : option Account)
    (w : World) (q : Z) (w' : World) :
  calculate_quantity b price sg acc w = Ok (q, w') ->
  eng w' = eng w /\ rmgr w' = rmgr w /\
  (calls w' = calls w \/ calls w' = calls w ++ [CallGetAccount]) /\
  forall a, acc = Some a ->
    q = (let n := py_int (sized_value (eng w) (rmgr w) a price sg / price) in
         if Z.ltb 1 n then n else 1%Z).
Proof.
  unfold calculate_quantity, bind, get, ret, log_call, raise.
  destruct acc as [a|]; [|destruct (get_account b) as [a|]]; cbn [eng rmgr calls];
    destruct (Qeq_bool price 0); intros H; simplify_eq;
    (split; [reflexivity|]); (split; [reflexivity|]); cbn [calls].
  - split; [left; reflexivity|]. intros a' Ha'. simplify_eq. reflexivity.
  - split; [right; reflexivity|]. intros a' Ha'. discriminate.
  - split; [right; reflexivity|]. intros a' Ha'. discriminate.
Qed.

Lemma open_position_frame (b : Broker) (env : Env) (sg : Signal) (row : Row) (tf : string)
    (w : World) (u : unit) (w' : World) :
  open_position_op b env sg row tf w = Ok (u, w') ->
  slots (eng w') = slots (eng w) /\ ticker (eng w') = ticker (eng w) /\
  exists new, calls w' = calls w ++ new /\ (submits new <= 1)%nat.
Proof.
  unfold open_position_op, bind, get, ret, log_call, modify_eng, modify_rm, raise.
  intros H.
  repeat (match goal with
  | H' : context [match ?x with _ => _ end] |- _ => destruct x eqn:?
  end; cbn [eng rmgr calls] in *); simplify_eq.
  all: try match goal with
  | E : calculate_quantity _ _ _ _ _ = Ok _ |- _ =>
      apply calculate_quantity_frame in E; destruct E as (Ee & _ & Ec & _)
  end.
  all: cbn [eng rmgr calls slots ticker set_position set_active_tf] in *;
    try rewrite Ee; try (destruct Ec as [Ec|Ec]; rewrite Ec); cbn [eng rmgr calls] in *;
    rewrite <- ?app_assoc; (split; [reflexivity|]); (split; [reflexivity|]);
    first [exists []; split; [symmetry; apply app_nil_r | unfold submits; simpl; lia]
          | eexists; split; [reflexivity|unfold submits; simpl; lia]].
Qed.

Lemma Qlt_bool_irrefl (a : Q) : Qlt_bool a a = false.
Proof. unfold Qlt_bool. rewrite (proj2 (Qle_bool_iff a a) (Qle_refl a)). reflexivity. Qed.

Lemma pick_best_spec (now : Q) (ss cands : list Slot) (best0 : option Slot) (bs0 : Q)
    (best : option Slot) (bs : Q) :
  pick_best now ss cands best0 bs0 = (best, bs) ->
  (best = best0 /\ bs = bs0) \/
  exists c sg, best = Some c /\ In c cands /\ last_signal c = Some sg /\
               score_signal now ss c sg = bs.
Proof.
  revert best0 bs0. induction cands as [|c cs IH]; intros best0 bs0 H; simpl in H.
  - simplify_eq. left; split; reflexivity.
  - destruct (last_signal c) as [sg|] eqn:Hl.
    + destruct (Qlt_bool bs0 (score_signal now ss c sg)); apply IH in H;
        destruct H as [[-> ->]|(c' & sg' & -> & Hin & Hl' & Hs)].
      * right. exists c, sg. repeat split; [left; reflexivity | exact Hl].
      * right. exists c', sg'. repeat split; [right; exact Hin | exact Hl' | exact Hs].
      * left. split; reflexivity.
      * right. exists c', sg'. repeat split; [right; exact Hin | exact Hl' | exact Hs].
    + rewrite Qlt_bool_irrefl in H. apply IH in H.
      destruct H as [[-> ->]|(c' & sg' & -> & Hin & Hl' & Hs)].
      * left. split; reflexivity.
      * right. exists c', sg'. repeat split; [right; exact Hin | exact Hl' | exact Hs].
Qed.

(** Past the two hard gates, or the sentinel. *)
Lemma score_signal_gate (now : Q) (ss : list Slot) (s : Slot) (sg : Signal) :
  score_signal now ss s sg = -999 \/ (2 <= count_tf_agreement now ss sg)%Z.
Proof.
  unfold score_signal. cbv zeta.
  destruct (Z.ltb (count_tf_agreement now ss sg) 2) eqn:E.
  - left. match goal with |- (if ?c then _ else _) = _ => destruct c end; reflexivity.
  - right. apply Z.ltb_ge. exact E.
Qed.

Lemma score_signal_pos_agreement (now : Q) (ss : list Slot) (s : Slot) (sg : Signal) :
  0 < score_signal now ss s sg -> (2 <= count_tf_agreement now ss sg)%Z.
Proof.
  intros H. destruct (score_signal_gate now ss s sg) as [E|E]; [|exact E].
  rewrite E in H. discriminate.
Qed.

Lemma clear_all_cleared (e : Engine) :
  Forall (fun s => last_signal s = None) (slots (set_slots (map clear_signal (slots e)) e)).
Proof.
  simpl. apply List.Forall_forall. intros s Hs. apply in_map_iff in Hs.
  destruct Hs as (s' & <- & _). reflexivity.
Qed.

(** C6: one Entry Arbitration, as [on_bar] runs it after buffering an entry
    signal on an existing slot, submits at most one order; an order is
    submitted, or a position opened, only for a winner that carries a fresh
    signal agreed on by at least two fresh slots and scoring above zero; and
    every slot's buffered signal is cleared afterwards. *)
Theorem C6_entry_arbitration (b : Broker) (env : Env) (now : Q) (tf : string) (sg : Signal)
    (row : Row) (w w' : World) (s0 : Slot) :
  find_slot tf (slots (eng w)) = Some s0 ->
  post_entry_signal b env now tf sg row w = Ok (tt, w') ->
  let ss := update_slot tf (post_signal sg row now) (slots (eng w)) in
  (exists new, calls w' = calls w ++ new /\ (submits new <= 1)%nat /\
     ((position (eng w) = None /\ is_Some (position (eng w'))) \/ submits new <> 0%nat ->
      exists s sg', In s ss /\ fresh now s = true /\ last_signal s = Some sg' /\
        (2 <= count_tf_agreement now ss sg')%Z /\ 0 < score_signal now ss s sg')) /\
  Forall (fun s => last_signal s = None) (slots (eng w')).
Proof.
  intros Hs0 H ss.
  unfold post_entry_signal, evaluate_entries, bind, get, modify_eng, ret in H.
  cbn [eng rmgr calls] in H. fold ss in H.
  change (position (set_slots ss (eng w))) with (position (eng w)) in H.
  change (slots (set_slots ss (eng w))) with ss in H.
  assert (Hpost : In (post_signal sg row now s0) ss /\ fresh now (post_signal sg row now s0) = true).
  { apply List.find_some in Hs0. destruct Hs0 as [Hin Htf]. split.
    - unfold ss, update_slot.
      pose proof (List.in_map (fun s => if streq (timeframe s) tf
                                        then post_signal sg row now s else s) _ _ Hin) as Hm.
      cbv beta in Hm. rewrite Htf in Hm. exact Hm.
    - unfold fresh. simpl. apply Qlt_bool_iff. unfold Qminus. rewrite Qplus_opp_r.
      reflexivity. }
  destruct (position (eng w)) as [p|] eqn:Hp.
  - unfold clear_all_signals, modify_eng in H. simplify_eq. split.
    + exists []. rewrite app_nil_r. split; [reflexivity|]. split; [unfold submits; simpl; lia|].
      intros [[Hc _]|Hc]; [discriminate | unfold submits in Hc; simpl in Hc; lia].
    + apply clear_all_cleared.
  - destruct (List.filter (fresh now) ss) as [|c cs] eqn:Hf.
    { exfalso. destruct Hpost as [Hin Hfr].
      assert (Hin' : In (post_signal sg row now s0) (List.filter (fresh now) ss))
        by (apply filter_In; split; assumption).
      rewrite Hf in Hin'. exact Hin'. }
    destruct (pick_best now ss (c :: cs) None (-999)) as [best bs] eqn:Hpb.
    destruct best as [bb|].
    + destruct (negb (streq (timeframe bb) "") && Qlt_bool 0 bs) eqn:Hcond.
      * destruct (last_signal bb) as [sgb|] eqn:Hlb; [|discriminate H].
        destruct (last_signal_row bb) as [rb|] eqn:Hrb; [|discriminate H].
        destruct (open_position_op b env sgb rb (timeframe bb)
                    {| eng := set_slots ss (eng w); rmgr := rmgr w; calls := calls w |})
          as [[u w2]|] eqn:Hop; [|discriminate H].
        unfold clear_all_signals, modify_eng in H. simplify_eq.
        apply open_position_frame in Hop. destruct Hop as (_ & _ & new & Hc & Hsub).
        split; [|apply clear_all_cleared].
        exists new. split; [exact Hc|]. split; [exact Hsub|]. intros _.
        apply pick_best_spec in Hpb.
        destruct Hpb as [[Hbb _]|(c' & sg' & Hbb & Hin & Hl' & Hsc)]; [discriminate Hbb|].
        injection Hbb as <-. rewrite Hl' in Hlb. injection Hlb as <-.
        rewrite <- Hf in Hin. apply filter_In in Hin. destruct Hin as [Hin Hfr].
        apply andb_prop in Hcond. destruct Hcond as [_ Hpos].
        apply Qlt_bool_iff in Hpos. rewrite <- Hsc in Hpos.
        exists bb, sg'. repeat split; try assumption.
        apply (score_signal_pos_agreement now ss bb). exact Hpos.
      * unfold clear_all_signals, modify_eng in H. simplify_eq. split.
        -- exists []. rewrite app_nil_r. split; [reflexivity|]. split; [unfold submits; simpl; lia|].
           intros [[_ Hc]|Hc]; [simpl in Hc; rewrite Hp in Hc; inversion Hc; discriminate
                               | unfold submits in Hc; simpl in Hc; lia].
        -- apply clear_all_cleared.
    + unfold clear_all_signals, modify_eng in H. simplify_eq. split.
      * exists []. rewrite app_nil_r. split; [reflexivity|]. split; [unfold submits; simpl; lia|].
        intros [[_ Hc]|Hc]; [simpl in Hc; rewrite Hp in Hc; inversion Hc; discriminate
                             | unfold submits in Hc; simpl in Hc; lia].
      * apply clear_all_cleared.
Qed.

Lemma C6_witness :
  find_slot "2m" (slots (eng c6_world)) = Some c6_slot2 /\
  post_entry_signal (fill_broker acc0 103) env0 1000 "2m" long_signal c6_row c6_world
    = Ok (tt, c6_after) /\
  let ss := update_slot "2m" (post_signal long_signal c6_row 1000) (slots (eng c6_world)) in
  (exists new, calls c6_after = calls c6_world ++ new /\ (submits new <= 1)%nat /\
     ((position (eng c6_world) = None /\ is_Some (position (eng c6_after)))
      \/ submits new <> 0%nat ->
      exists s sg', In s ss /\ fresh 1000 s = true /\ last_signal s = Some sg' /\
        (2 <= count_tf_agreement 1000 ss sg')%Z /\ 0 < score_signal 1000 ss s sg')) /\
  Forall (fun s => last_signal s = None) (slots (eng c6_after)).
Proof.
  assert (H1 : find_slot "2m" (slots (eng c6_world)) = Some c6_slot2) by reflexivity.
  assert (H2 : post_entry_signal (fill_broker acc0 103) env0 1000 "2m" long_signal c6_row c6_world
               = Ok (tt, c6_after)) by (vm_compute; reflexivity).
  split; [exact H1|]. split; [exact H2|].
  exact (C6_entry_arbitration (fill_broker acc0 103) env0 1000 "2m" long_signal c6_row
           c6_world c6_after c6_slot2 H1 H2).
Defined.

(** The scenario opens a position, with one order submitted. *)
Example c6_opens :
  is_Some (position (eng c6_after)) /\ submits (calls c6_after) = 1%nat.
Proof. vm_compute. split; [eexists; reflexivity | reflexivity]. Qed.

(** Scenario S2: the 5m slot holds no signal; the lone 2m signal is hard
    gated and nothing is submitted. *)
Example s2_lone_signal_blocked :
  match post_entry_signal (fill_broker acc0 103) env0 1000 "2m" long_signal c6_row
          (mkWorld (set_slots [c6_slot2; mkSlot "5m" 5 3 None None None] c6_engine)
                   (rm0 cfg0) []) with
  | Ok (_, w') => calls w' = [] /\ position (eng w') = None
  | Raised => False
  end.
Proof. vm_compute. split; reflexivity. Qed.

Lemma Qplus_lcomm (x y z : Q) : x + (y + z) = y + (x + z).
Proof.
  destruct x as [a p], y as [b q], z as [c r]. unfold Qplus. simpl. f_equal.
  - rewrite !Pos2Z.inj_mul. ring.
  - apply Pos2Z.inj. rewrite !Pos2Z.inj_mul. ring.
Qed.

Lemma exposure_insert_new (m : gmap string Q) (k : string) (v : Q) :
  m !! k = None -> exposure (<[k := v]> m) = v + exposure m.
Proof.
  intros Hk. unfold exposure. apply map_fold_insert_L; [|exact Hk].
  intros. apply Qplus_lcomm.
Qed.

Lemma py_int_le (x : Q) : (1 <= py_int x)%Z -> inject_Z (py_int x) <= x.
Proof.
  destruct x as [a p]. unfold py_int, Qle. simpl. intros H.
  assert (Ha : (0 <= a)%Z).
  { destruct (Z.le_gt_cases 0 a) as [|Hn]; [assumption|].
    rewrite <- (Z.opp_involutive a) in H. rewrite Z.quot_opp_l in H by lia.
    pose proof (Z.quot_pos (- a) (Z.pos p) ltac:(lia) ltac:(lia)). lia. }
  rewrite Z.quot_div_nonneg by lia. rewrite Z.mul_1_r.
  rewrite Z.mul_comm. apply Z.mul_div_le. lia.
Qed.

Lemma py_max_0_bound (x d : Q) : 0 < d -> d <= py_max 0 x -> d <= x.
Proof.
  unfold py_max. destruct (Qlt_bool 0 x) eqn:E; intros Hd Hle; [exact Hle|].
  exfalso. apply (Qlt_not_le _ _ Hd Hle).
Qed.

Lemma sized_value_le_remaining (e : Engine) (rm : RiskManager) (acc : Account) (price : Q)
    (sg : Signal) :
  has_risk_manager e = true ->
  sized_value e rm acc price sg <= get_remaining_capacity rm (acc_equity acc).
Proof.
  intros Hrm. unfold sized_value. rewrite Hrm. cbv zeta.
  set (base := if streq (sizing_method e) "fixed" then _ else _).
  set (rem := get_remaining_capacity rm (acc_equity acc)).
  assert (H1 : (if Qlt_bool rem base then rem else base) <= rem).
  { destruct (Qlt_bool rem base) eqn:E; [apply Qle_refl|]. apply Qlt_bool_false in E. exact E. }
  set (d := if Qlt_bool rem base then rem else base) in *.
  destruct (Qlt_bool _ d && Qlt_bool 0 _) eqn:E; [|exact H1].
  apply andb_prop in E. destruct E as [E _]. apply Qlt_bool_iff in E.
  apply Qlt_le_weak. eapply Qlt_le_trans; eassumption.
Qed.

Lemma sized_value_congr (e : Engine) (rm1 rm2 : RiskManager) (acc : Account) (price : Q)
    (sg : Signal) :
  config rm1 = config rm2 -> open_positions rm1 = open_positions rm2 ->
  sized_value e rm1 acc price sg = sized_value e rm2 acc price sg.
Proof.
  intros Hc Ho. unfold sized_value, get_remaining_capacity. rewrite Hc, Ho. reflexivity.
Qed.

Lemma rollover_config (env : Env) (rm : RiskManager) :
  config (check_day_rollover env rm) = config rm.
Proof.
  unfold check_day_rollover, rm_resume, rm_set_paused.
  destruct (Z.eqb _ _); [reflexivity|]. simpl.
  destruct (_ && _); simpl; [destruct (is_paused rm)|]; reflexivity.
Qed.

(** A passing risk check on an entry signal leaves the positions and the
    configuration as they were, and the ticker is not held. *)
Lemma check_new_order_passed (env : Env) (rm : RiskManager) (sg : Signal) (tk : string)
    (price equity bp : Q) (acc : option Account) (r : string) :
  is_close_kind (sig_direction sg) = false ->
  fst (check_new_order env rm sg tk price equity bp acc) = Ok (true, r) ->
  let rm' := snd (check_new_order env rm sg tk price equity bp acc) in
  config rm' = config rm /\ open_positions rm' = open_positions rm /\
  open_positions rm !! tk = None.
Proof.
  intros Hc Hok.
  destruct (rollover_frame env rm) as [F1 _]. pose proof (rollover_config env rm) as F3.
  revert Hok. unfold check_new_order. cbv zeta.
  set (rm1 := check_day_rollover env rm) in *.
  rewrite Hc.
  repeat match goal with
  | |- context [if ?c then _ else _] => destruct c eqn:?
  end; simpl; intros Hok; try discriminate Hok;
    unfold rm_set_peak in *; simpl in *; rewrite ?F1, ?F3 in *;
    (split; [reflexivity|]); (split; [reflexivity|]);
    match goal with
    | H : bool_decide _ = false |- _ =>
        apply bool_decide_eq_false in H;
        destruct (open_positions rm !! tk); [exfalso; apply H; eexists; reflexivity|reflexivity]
    end.
Qed.

(** C2 amended: after an Open Path that passed the risk check and opened the
    position, the exposure stays within the cap whenever [int(desired_value
    / price)] is at least one and the broker fills the ordered quantity at
    no more than the bar's close. *)
Theorem C2_exposure_within_cap (b : Broker) (env : Env) (sg : Signal) (row : Row)
    (tf : string) (w w' : World) (acc : Account) (r : string) :
  let price := b_close (r_bar row) in
  position (eng w) = None ->
  has_risk_manager (eng w) = true ->
  is_close_kind (sig_direction sg) = false ->
  get_account b = Ok acc ->
  fst (check_new_order env (rmgr w) sg (ticker (eng w)) price (acc_equity acc)
         (acc_buying_power acc) (Some acc)) = Ok (true, r) ->
  (forall o tr, submit_order b o = Some tr ->
     tr_quantity tr = inject_Z (o_quantity o) /\ 0 <= tr_entry_price tr <= price) ->
  0 < price ->
  (1 <= py_int (sized_value (eng w) (rmgr w) acc price sg / price))%Z ->
  open_position_op b env sg row tf w = Ok (tt, w') ->
  is_Some (position (eng w')) ->
  exposure (open_positions (rmgr w')) <= acc_equity acc * max_total_exposure_pct (config (rmgr w)).
Proof.
  intros price Hp Hrm Hck Hga Hok Hfill Hpr Hn H Hopen.
  destruct (check_new_order_passed env (rmgr w) sg (ticker (eng w)) price (acc_equity acc)
              (acc_buying_power acc) (Some acc) r Hck Hok) as (Cc & Co & Cnot).
  revert Hok Cc Co.
  unfold open_position_op, bind, get, ret, log_call, modify_eng, modify_rm in H.
  rewrite Hp, Hrm in H. cbn [eng rmgr calls] in H. rewrite Hga in H.
  cbn [eng rmgr calls] in H. fold price in H |- *.
  destruct (check_new_order env (rmgr w) sg (ticker (eng w)) price (acc_equity acc)
              (acc_buying_power acc) (Some acc)) as [res rm'] eqn:Hc.
  cbn [fst snd]. intros -> Cc Co. cbn [eng rmgr calls] in H.
  destruct (calculate_quantity b price sg (Some acc)
              {| eng := eng w; rmgr := rm'; calls := calls w ++ [CallGetAccount] |})
    as [[q w2]|] eqn:Hq; [|discriminate H].
  apply calculate_quantity_frame in Hq. destruct Hq as (Qe & Qr & _ & Qq).
  specialize (Qq acc eq_refl). cbn [eng rmgr] in Qq.
  rewrite (sized_value_congr (eng w) rm' (rmgr w) acc price sg Cc Co) in Qq.
  remember (py_int (sized_value (eng w) (rmgr w) acc price sg / price)) as n eqn:En.
  assert (Hqn : q = n) by (rewrite Qq; destruct (Z.ltb_spec 1 n); lia).
  destruct (Z.leb q 0) eqn:Hq0.
  { apply Z.leb_le in Hq0. lia. }
  subst q.
  assert (Hif : (if (1 <? n)%Z then n else 1%Z) = n) by (destruct (Z.ltb_spec 1 n); lia).
  destruct w2 as [e2 r2 c2]. cbn [eng rmgr calls] in H, Qe, Qr. subst e2 r2.
  destruct (submit_order b _) as [tr|] eqn:Hs.
  2:{ simplify_eq. cbn [eng] in Hopen. rewrite Hp in Hopen. destruct Hopen as [? Hx]. discriminate Hx. }
  apply Hfill in Hs. cbn [o_quantity] in Hs. destruct Hs as (Hqty & Hf0 & Hf1).
  cbn [eng rmgr calls set_position set_active_tf has_risk_manager] in H.
  rewrite Hrm in H. injection H as <-. cbn [rmgr open_positions record_trade_opened].
  rewrite Co.
  rewrite exposure_insert_new by (rewrite Co in Cnot || idtac; exact Cnot).
  rewrite Hqty, ?Hif.
  (* the filled value is at most the sized value, itself within capacity *)
  assert (Hn1 : inject_Z n <= sized_value (eng w) (rmgr w) acc price sg / price)
    by (rewrite En; apply py_int_le; rewrite <- En; exact Hn).
  assert (Hv : inject_Z n * tr_entry_price tr <= inject_Z n * price).
  { apply Qmult_le_l; [|exact Hf1]. apply (Qlt_le_trans _ 1); [reflexivity|].
    change 1 with (inject_Z 1). rewrite <- Zle_Qle. exact Hn. }
  assert (Hd : inject_Z n * price <= sized_value (eng w) (rmgr w) acc price sg).
  { set (sv := sized_value (eng w) (rmgr w) acc price sg) in *.
    eapply Qle_trans; [apply Qmult_le_r; [exact Hpr | exact Hn1]|].
    rewrite (Qmult_comm (sv / price) price), Qmult_div_r; [apply Qle_refl|].
    intro E. rewrite E in Hpr. discriminate Hpr. }
  assert (Hpos : 0 < inject_Z n * price).
  { apply Qmult_lt_0_compat; [|exact Hpr]. apply (Qlt_le_trans _ 1); [reflexivity|].
    change 1 with (inject_Z 1). rewrite <- Zle_Qle. exact Hn. }
  pose proof (sized_value_le_remaining (eng w) (rmgr w) acc price sg Hrm) as Hcap.
  unfold get_remaining_capacity in Hcap.
  assert (Hfin : inject_Z n * price <=
                 acc_equity acc * max_total_exposure_pct (config (rmgr w))
                 - exposure (open_positions (rmgr w))).
  { apply (py_max_0_bound _ _ Hpos). eapply Qle_trans; eassumption. }
  lra.
Qed.

(** C2 counterexample: equity 10000, exposure cap 100% of equity, 9950
    already held in PLTR, close 100.  The risk check passes (capacity 50 is
    left), the sized value is capped to 50, [int(50 / 100) = 0] is raised to
    one share by [max(1, ...)], and the fill at 100 takes the exposure to
    10050, past the cap of 10000. *)
Lemma C2_min_one_share_exceeds_cap :
  fst (check_new_order env0 rm2 long_signal "AAPL" 100 10000 20000 (Some acc2))
    = Ok (true, "approved") /\
  match open_position_op (fill_broker acc2 100) env0 long_signal c2_row "2m" c2_world with
  | Ok (_, w') =>
      is_Some (position (eng w')) /\
      exposure (open_positions (rmgr w')) == 10050 /\
      acc_equity acc2 * max_total_exposure_pct cfg2 < exposure (open_positions (rmgr w'))
  | Raised => False
  end.
Proof.
  split; [vm_compute; reflexivity|].
  vm_compute. split; [eexists; reflexivity|]. split; reflexivity.
Qed.

Lemma C2_witness :
  exposure (open_positions (rmgr c2_after))
    <= acc_equity acc0 * max_total_exposure_pct (config (rmgr c6_world)).
Proof.
  refine (C2_exposure_within_cap (fill_broker acc0 103) env0 long_signal c6_row "2m"
            c6_world c2_after acc0 "approved" eq_refl eq_refl eq_refl eq_refl _ _ _ _ _ _).
  - vm_compute. reflexivity.
  - intros o tr Hs. simpl in Hs. injection Hs as <-. simpl.
    split; [reflexivity|]. split; vm_compute; discriminate.
  - reflexivity.
  - apply Z.leb_le. vm_compute. reflexivity.
  - vm_compute. reflexivity.
  - vm_compute. eexists. reflexivity.
Defined.

Lemma close_no_zero_div (pos : Position) :
  ~ quantity pos == 0 ->
  Qlt_bool 0 (entry_price pos) && Qeq_bool (entry_price pos * quantity pos) 0 = false.
Proof.
  intros Hq. destruct (Qlt_bool 0 (entry_price pos)) eqn:E1; [|reflexivity].
  destruct (Qeq_bool (entry_price pos * quantity pos) 0) eqn:E2; [|reflexivity].
  exfalso. apply Qeq_bool_iff in E2. apply Qlt_bool_iff in E1.
  destruct (Qmult_integral _ _ E2) as [E|E]; [rewrite E in E1; apply (Qlt_irrefl 0 E1) | exact (Hq E)].
Qed.

(** C1 amended: on an active engine, a close-kind signal for the engine's
    ticker on a configured timeframe, arriving while a position of non-zero
    quantity is held, on a bar whose stop/target check does not fire (the
    position was opened on another timeframe, or the bar hits neither its
    stop nor its target), makes exactly one close call to the broker,
    whatever the broker answers. *)
Theorem C1_close_signal_one_attempt (b : Broker) (env : Env) (now : Q) (tk tf : string)
    (row : Row) (strategy : option Position -> Result (option Signal)) (sg : Signal)
    (w : World) (s : Slot) (pos : Position) :
  active (eng w) = true ->
  streq tk (ticker (eng w)) = true ->
  find_slot tf (slots (eng w)) = Some s ->
  position (eng w) = Some pos ->
  ~ quantity pos == 0 ->
  (active_tf (eng w) <> Some tf \/ check_stops_reason pos (r_bar row) = None) ->
  (forall p, strategy p = Ok (Some sg)) ->
  is_close_kind (sig_direction sg) = true ->
  long_only (eng w) && (streq (sig_direction sg) "short" || streq (sig_direction sg) "close_short")
    = false ->
  exists w', on_bar b env now tk tf (Ok row) strategy w = Ok (tt, w') /\
             calls w' = calls w ++ [CallClose (ticker (eng w))].
Proof.
  destruct w as [[etk ess epos eatf eact etb erm elo esm epct efix erisk] rm cs].
  cbn [eng rmgr calls ticker slots position active_tf active long_only has_risk_manager].
  intros Hact Htk Hslot Hpos Hq Hstop Hstrat Hclose Hlong. subst eact epos.
  unfold on_bar, bind, get, ret, modify_eng.
  cbn [eng rmgr calls ticker slots position active_tf active long_only negb orb].
  rewrite Htk, Hslot.
  cbn [eng rmgr calls ticker slots position active_tf active long_only negb orb
       set_slots incr_total_bars].
  rewrite (bool_decide_eq_true_2 (is_Some (Some pos))) by (eexists; reflexivity).
  cbn [andb].
  destruct (bool_decide (eatf = Some tf)) eqn:Hatf.
  - apply bool_decide_eq_true in Hatf. subst eatf.
    destruct Hstop as [Hne|Hnone]; [contradiction|].
    unfold check_stops_op, bind, get, ret.
    cbn [eng rmgr calls ticker slots position active_tf active long_only set_slots
         incr_total_bars].
    rewrite Hnone.
    cbn [eng rmgr calls ticker slots position active_tf active long_only set_slots
         incr_total_bars].
    rewrite (bool_decide_eq_true_2 (Some tf = Some tf)) by reflexivity.
    cbn [eng rmgr calls ticker slots position active_tf active long_only set_slots
         incr_total_bars set_position].
    rewrite Hstrat.
    cbn [eng rmgr calls ticker slots position active_tf active long_only set_slots
         incr_total_bars set_position].
    rewrite Hlong, Hclose.
    unfold close_position_op, bind, get, log_call, ret, modify_eng, modify_rm.
    cbn [eng rmgr calls ticker slots position active_tf active long_only set_slots
         incr_total_bars set_position has_risk_manager].
    destruct (close_position b etk) as [[tr|]|];
      [rewrite close_no_zero_div by (unfold quantity in *; rewrite ?update_trailing_stop_trade; exact Hq);
       destruct erm; [destruct (is_paused _)|]| |];
      eexists; (split; [reflexivity|reflexivity]).
  - cbn [eng rmgr calls ticker slots position active_tf active long_only set_slots
         incr_total_bars set_position].
    rewrite Hatf.
    rewrite Hstrat.
    cbn [eng rmgr calls ticker slots position active_tf active long_only set_slots
         incr_total_bars set_position].
    rewrite Hlong, Hclose.
    unfold close_position_op, bind, get, log_call, ret, modify_eng, modify_rm.
    cbn [eng rmgr calls ticker slots position active_tf active long_only set_slots
         incr_total_bars set_position has_risk_manager].
    destruct (close_position b etk) as [[tr|]|];
      [rewrite close_no_zero_div by (unfold quantity in *; rewrite ?update_trailing_stop_trade; exact Hq);
       destruct erm; [destruct (is_paused _)|]| |];
      eexists; (split; [reflexivity|reflexivity]).
Qed.

(** C1 counterexample: once the engine is paused ([active = false], as
    its own [pause()] leaves it, e.g. after a close it recorded left the
    risk manager paused), a close_long signal for the held position is
    never looked at: [on_bar] returns at once and no close call reaches
    the broker. *)
Lemma C1_paused_close_ignored :
  position (eng (c1_world false)) = Some c3_position /\
  is_close_kind (sig_direction close_sig) = true /\
  on_bar (broker_with (Ok None)) env0 1000 "AAPL" "5m" (Ok c6_row)
    (fun _ => Ok (Some close_sig)) (c1_world false) = Ok (tt, c1_world false) /\
  calls (c1_world false) = [].
Proof. repeat split. Qed.

Lemma C1_witness :
  exists w', on_bar (broker_with (Ok None)) env0 1000 "AAPL" "5m" (Ok c6_row)
               (fun _ => Ok (Some close_sig)) (c1_world true) = Ok (tt, w') /\
             calls w' = calls (c1_world true) ++ [CallClose (ticker (eng (c1_world true)))].
Proof.
  apply (C1_close_signal_one_attempt (broker_with (Ok None)) env0 1000 "AAPL" "5m" c6_row
           (fun _ => Ok (Some close_sig)) close_sig (c1_world true) c6_slot5 c3_position).
  - reflexivity.
  - reflexivity.
  - reflexivity.
  - reflexivity.
  - intro H. vm_compute in H. discriminate H.
  - left. discriminate.
  - intros p. reflexivity.
  - reflexivity.
  - reflexivity.
Defined.
End EngineProofs.

(* ================================================================== *)
(** * Further properties of the code *)

Module PositionExtra.

(** X1: a stop-loss of exactly [0.0] with no trailing stop counts as no
    stop at all ([self.stop_loss or self.trailing_stop] treats [0.0] as
    false), so [is_stop_hit] is false on every bar. *)
Theorem zero_stop_never_hit (p : Position) (bar_low bar_high : Q) :
  stop_loss p = Some 0 -> trailing_stop p = None ->
  get_effective_stop p = None /\ is_stop_hit p bar_low bar_high = false.
Proof.
  intros Hs Ht. unfold is_stop_hit, get_effective_stop, py_or, py_truthy.
  rewrite Hs, Ht. simpl. split; reflexivity.
Qed.

Lemma zero_stop_never_hit_witness :
  let p := mkPosition (mkTrade "AAPL" "long" 10 100) (Some 0) None None None in
  get_effective_stop p = None /\ is_stop_hit p (-5) 200 = false.
Proof. apply zero_stop_never_hit; reflexivity. Defined.

(** X2: with a trailing distance [d], one update at price [c] leaves a
    long position's trailing stop at or above both [c - d] and its old
    level, and a short position's at or below both [c + d] and its old
    level; the trade, the stop-loss, the target and the distance are kept. *)
Theorem trailing_stop_ratchet (p : Position) (c d : Q) :
  trailing_stop_distance p = Some d ->
  let p' := update_trailing_stop p c in
  trade p' = trade p /\ stop_loss p' = stop_loss p /\ take_profit p' = take_profit p /\
  trailing_stop_distance p' = Some d /\
  exists t, trailing_stop p' = Some t /\
    (if streq (direction p) "long"
     then c - d <= t /\ (forall t0, trailing_stop p = Some t0 -> t0 <= t)
     else t <= c + d /\ (forall t0, trailing_stop p = Some t0 -> t <= t0)).
Proof.
  intros Hd p'. subst p'. unfold update_trailing_stop. rewrite Hd.
  destruct (streq (direction p) "long");
  destruct (trailing_stop p) as [t0|] eqn:Ht.
  - destruct (Qlt_bool t0 (c - d)) eqn:E; qbool.
    + do 4 (split; [first [reflexivity | assumption]|]). exists (c - d). split; [reflexivity|].
      split; [apply Qle_refl | intros t1 Ht1; injection Ht1 as <-; lra].
    + do 4 (split; [first [reflexivity | assumption]|]). exists t0. split; [exact Ht|].
      split; [assumption | intros t1 Ht1; injection Ht1 as <-; apply Qle_refl].
  - do 4 (split; [first [reflexivity | assumption]|]). exists (c - d). split; [reflexivity|].
    split; [apply Qle_refl | intros t1 Ht1; discriminate Ht1].
  - destruct (Qlt_bool (c + d) t0) eqn:E; qbool.
    + do 4 (split; [first [reflexivity | assumption]|]). exists (c + d). split; [reflexivity|].
      split; [apply Qle_refl | intros t1 Ht1; injection Ht1 as <-; lra].
    + do 4 (split; [first [reflexivity | assumption]|]). exists t0. split; [exact Ht|].
      split; [assumption | intros t1 Ht1; injection Ht1 as <-; apply Qle_refl].
  - do 4 (split; [first [reflexivity | assumption]|]). exists (c + d). split; [reflexivity|].
    split; [apply Qle_refl | intros t1 Ht1; discriminate Ht1].
Qed.

Lemma trailing_stop_ratchet_witness :
  let p := mkPosition (mkTrade "AAPL" "long" 10 100) (Some 95) None (Some 97) (Some 2) in
  let p' := update_trailing_stop p 101 in
  trade p' = trade p /\ stop_loss p' = stop_loss p /\ take_profit p' = take_profit p /\
  trailing_stop_distance p' = Some 2 /\
  exists t, trailing_stop p' = Some t /\
    (if streq (direction p) "long"
     then 101 - 2 <= t /\ (forall t0, trailing_stop p = Some t0 -> t0 <= t)
     else t <= 101 + 2 /\ (forall t0, trailing_stop p = Some t0 -> t <= t0)).
Proof. apply trailing_stop_ratchet. reflexivity. Defined.

(** X3: the unrealized P&L is zero at the entry price, and for a positive
    quantity it is positive exactly when the price moved in the position's
    favour: above the entry for a long, below it for anything else. *)
Theorem unrealized_pnl_sign (p : Position) (c : Q) :
  0 < quantity p ->
  unrealized_pnl p (entry_price p) == 0 /\
  unrealized_pnl_pct p (entry_price p) == 0 /\
  (0 < unrealized_pnl p c <->
   if streq (direction p) "long" then entry_price p < c else c < entry_price p).
Proof.
  intros Hq. unfold unrealized_pnl_pct, unrealized_pnl.
  destruct (streq (direction p) "long").
  - split; [ring|]. split.
    + destruct (Qeq_bool _ 0); [reflexivity|].
      unfold Qminus. rewrite Qplus_opp_r, Qmult_0_l. unfold Qdiv. rewrite Qmult_0_l, Qmult_0_l. reflexivity.
    + split; intro H.
      * rewrite <- (Qmult_0_l (quantity p)) in H. apply Qmult_lt_r in H; [lra | exact Hq].
      * apply Qmult_lt_0_compat; [lra | exact Hq].
  - split; [ring|]. split.
    + destruct (Qeq_bool _ 0); [reflexivity|].
      unfold Qminus. rewrite Qplus_opp_r, Qmult_0_l. unfold Qdiv. rewrite Qmult_0_l, Qmult_0_l. reflexivity.
    + split; intro H.
      * rewrite <- (Qmult_0_l (quantity p)) in H. apply Qmult_lt_r in H; [lra | exact Hq].
      * apply Qmult_lt_0_compat; [lra | exact Hq].
Qed.

Lemma unrealized_pnl_sign_witness :
  let p := mkPosition (mkTrade "AAPL" "short" 10 100) None None None None in
  unrealized_pnl p (entry_price p) == 0 /\
  unrealized_pnl_pct p (entry_price p) == 0 /\
  (0 < unrealized_pnl p 90 <->
   if streq (direction p) "long" then entry_price p < 90 else 90 < entry_price p).
Proof. apply unrealized_pnl_sign. reflexivity. Defined.

End PositionExtra.


Module RiskExtra.
Import RiskProofs EngineProofs.

Lemma rm_eta (rm : RiskManager) :
  mkRM (config rm) (peak_equity rm) (daily_pnl rm) (daily_trades rm) (daily_wins rm)
       (daily_losses rm) (current_date rm) (is_paused rm) (pause_reason rm)
       (open_positions rm) = rm.
Proof. destruct rm; reflexivity. Qed.

Lemma rollover_date (env : Env) (rm : RiskManager) :
  current_date (check_day_rollover env rm) = today env.
Proof.
  unfold check_day_rollover, rm_resume, rm_set_paused.
  destruct (Z.eqb (today env) (current_date rm)) eqn:E; [symmetry; apply Z.eqb_eq; exact E|].
  simpl. destruct (is_paused rm && contains "Daily loss" (pause_reason rm)); simpl;
    [destruct (is_paused rm)|]; reflexivity.
Qed.

Lemma rollover_same_day (env : Env) (rm : RiskManager) :
  today env = current_date rm -> check_day_rollover env rm = rm.
Proof.
  intros H. unfold check_day_rollover. rewrite H, Z.eqb_refl. reflexivity.
Qed.

Lemma record_trade_closed_positions (env : Env) (rm : RiskManager) (t : string) (pnl : Q) :
  open_positions (record_trade_closed env rm t pnl) = delete t (open_positions rm).
Proof.
  destruct (rollover_frame env rm) as [F1 _].
  unfold record_trade_closed, rm_pause, rm_set_paused. cbv zeta.
  repeat match goal with
  | |- context [if ?c then _ else _] => destruct c
  end; simpl; rewrite F1; reflexivity.
Qed.

(** X4: the day rollover resets at most once a day: applied a second time
    on the same day it changes nothing. *)
Theorem day_rollover_idempotent (env : Env) (rm : RiskManager) :
  check_day_rollover env (check_day_rollover env rm) = check_day_rollover env rm.
Proof. apply rollover_same_day. symmetry. apply rollover_date. Qed.

(** X5: on a new day [get_daily_stats] reports the new date and zero P&L,
    trades, wins and losses; the manager stays paused only if it was
    paused for a reason other than a daily loss; open positions and the
    peak equity are carried over. *)
Theorem daily_stats_new_day (env : Env) (rm : RiskManager) :
  today env <> current_date rm ->
  let '(st, rm') := get_daily_stats env rm in
  ds_date st = today env /\ ds_daily_pnl st = 0 /\ ds_trades st = 0%Z /\
  ds_wins st = 0%Z /\ ds_losses st = 0%Z /\
  ds_is_paused st = is_paused rm && negb (contains "Daily loss" (pause_reason rm)) /\
  open_positions rm' = open_positions rm /\ peak_equity rm' = peak_equity rm.
Proof.
  intros H. unfold get_daily_stats, check_day_rollover.
  apply Z.eqb_neq in H. rewrite H. simpl.
  destruct (is_paused rm) eqn:Hp; destruct (contains "Daily loss" (pause_reason rm)); simpl;
    unfold rm_resume, rm_set_paused; simpl; repeat split; reflexivity.
Qed.

Lemma daily_stats_new_day_witness :
  let rm := mkRM cfg0 60000 (-3500) 4 1 3 99 true "Daily loss limit hit" ∅ in
  today env0 <> current_date rm /\
  let '(st, rm') := get_daily_stats env0 rm in
  ds_date st = today env0 /\ ds_daily_pnl st = 0 /\ ds_trades st = 0%Z /\
  ds_wins st = 0%Z /\ ds_losses st = 0%Z /\
  ds_is_paused st = is_paused rm && negb (contains "Daily loss" (pause_reason rm)) /\
  open_positions rm' = open_positions rm /\ peak_equity rm' = peak_equity rm.
Proof.
  split; [vm_compute; discriminate|].
  apply daily_stats_new_day. vm_compute. discriminate.
Defined.

(** X6: [_pause] keeps the first reason: pausing a second time changes
    nothing; after [_pause] the manager is paused, and [resume] then
    clears the flag and the reason, leaving every other field as before
    the pause. *)
Theorem pause_keeps_first_reason (rm : RiskManager) (r1 r2 : string) :
  rm_pause (rm_pause rm r1) r2 = rm_pause rm r1 /\
  is_paused (rm_pause rm r1) = true /\
  rm_resume (rm_pause rm r1) = rm_set_paused rm false "".
Proof.
  unfold rm_pause, rm_resume.
  destruct (is_paused rm) eqn:Hp; simpl.
  - rewrite Hp. repeat split; try reflexivity; exact Hp.
  - repeat split; reflexivity.
Qed.

(** X7: opening a ticker the manager does not hold records its value
    under that ticker and adds one to the open-position count; closing it
    again restores the open positions the manager had before. *)
Theorem record_open_then_close (env : Env) (rm : RiskManager) (t : string) (v pnl : Q) :
  open_positions rm !! t = None ->
  open_positions (record_trade_opened rm t v) !! t = Some v /\
  get_open_position_count (record_trade_opened rm t v) = (get_open_position_count rm + 1)%Z /\
  open_positions (record_trade_closed env (record_trade_opened rm t v) t pnl) = open_positions rm.
Proof.
  intros Hn. split; [apply lookup_insert_eq|]. split.
  - unfold get_open_position_count, record_trade_opened; simpl.
    rewrite map_size_insert_None by exact Hn. lia.
  - rewrite record_trade_closed_positions. unfold record_trade_opened; simpl.
    apply delete_insert_id. exact Hn.
Qed.

Lemma record_open_then_close_witness :
  open_positions (record_trade_opened held_rm "MSTR" 5000) !! "MSTR" = Some 5000 /\
  get_open_position_count (record_trade_opened held_rm "MSTR" 5000)
    = (get_open_position_count held_rm + 1)%Z /\
  open_positions (record_trade_closed env0 (record_trade_opened held_rm "MSTR" 5000) "MSTR" (-20))
    = open_positions held_rm.
Proof. apply record_open_then_close. vm_compute. reflexivity. Defined.

Lemma py_max_0_compat (a b : Q) : a == b -> py_max 0 a == py_max 0 b.
Proof.
  intros E. unfold py_max.
  destruct (Qlt_bool 0 a) eqn:Ea, (Qlt_bool 0 b) eqn:Eb; qbool; try lra; reflexivity.
Qed.

(** X8: the remaining capacity is never negative, and opening a ticker the
    manager does not hold with value [v] lowers the uncapped capacity
    [equity * max_total_exposure_pct - exposure] by exactly [v]. *)
Theorem remaining_capacity_after_open (rm : RiskManager) (t : string) (v equity : Q) :
  open_positions rm !! t = None ->
  0 <= get_remaining_capacity rm equity /\
  get_remaining_capacity (record_trade_opened rm t v) equity ==
    py_max 0 (equity * max_total_exposure_pct (config rm) - exposure (open_positions rm) - v).
Proof.
  intros Hn. split; [apply py_max_ge_l|].
  unfold get_remaining_capacity, record_trade_opened; simpl.
  rewrite exposure_insert_new by exact Hn.
  apply py_max_0_compat. ring.
Qed.

Lemma remaining_capacity_after_open_witness :
  0 <= get_remaining_capacity held_rm 60000 /\
  get_remaining_capacity (record_trade_opened held_rm "MSTR" 5000) 60000 ==
    py_max 0 (60000 * max_total_exposure_pct (config held_rm)
              - exposure (open_positions held_rm) - 5000).
Proof. apply remaining_capacity_after_open. vm_compute. reflexivity. Defined.

Lemma record_trade_closed_pnl_same_day (env : Env) (rm : RiskManager) (t : string) (pnl : Q) :
  today env = current_date rm ->
  daily_pnl (record_trade_closed env rm t pnl) = daily_pnl rm + pnl /\
  open_positions (record_trade_closed env rm t pnl) = delete t (open_positions rm).
Proof.
  intros Hd. unfold record_trade_closed. rewrite (rollover_same_day env rm Hd). cbv zeta.
  simpl. unfold rm_pause, rm_set_paused.
  destruct (Qle_bool (daily_pnl rm + pnl) (- max_daily_loss (config rm)));
  destruct (is_paused rm); destruct (Qle_bool 0 pnl); split; reflexivity.
Qed.

(** X9: on the manager's current day, [record_trade_closed] adds the P&L
    to [daily_pnl], counts exactly one win or loss (a zero P&L is a win),
    leaves [daily_trades] alone, drops the ticker from the open positions,
    and leaves the manager paused exactly when it already was or the new
    daily P&L is at most [-max_daily_loss]. *)
Theorem record_trade_closed_same_day (env : Env) (rm : RiskManager) (t : string) (pnl : Q) :
  today env = current_date rm ->
  let rm' := record_trade_closed env rm t pnl in
  daily_pnl rm' = daily_pnl rm + pnl /\ daily_trades rm' = daily_trades rm /\
  (daily_wins rm' = if Qle_bool 0 pnl then daily_wins rm + 1 else daily_wins rm)%Z /\
  (daily_wins rm' + daily_losses rm' = daily_wins rm + daily_losses rm + 1)%Z /\
  open_positions rm' = delete t (open_positions rm) /\
  (is_paused rm' = true <->
   is_paused rm = true \/ daily_pnl rm + pnl <= - max_daily_loss (config rm)).
Proof.
  intros Hd rm'. subst rm'.
  unfold record_trade_closed. rewrite (rollover_same_day env rm Hd). cbv zeta.
  simpl. unfold rm_pause, rm_set_paused.
  destruct (Qle_bool (daily_pnl rm + pnl) (- max_daily_loss (config rm))) eqn:El;
  destruct (is_paused rm) eqn:Hp; destruct (Qle_bool 0 pnl); simpl;
  (repeat split; try reflexivity; try lia; try (intros; first [left; reflexivity | right; apply Qle_bool_iff; exact El | reflexivity]));
  try (intros [H|H]; [discriminate H | apply Qle_bool_iff in H; congruence]).
Qed.

Lemma record_trade_closed_same_day_witness :
  today env0 = current_date held_rm /\
  let rm' := record_trade_closed env0 held_rm "AAPL" (-3200) in
  daily_pnl rm' = daily_pnl held_rm + (-3200) /\ daily_trades rm' = daily_trades held_rm /\
  (daily_wins rm' = if Qle_bool 0 (-3200) then daily_wins held_rm + 1 else daily_wins held_rm)%Z /\
  (daily_wins rm' + daily_losses rm' = daily_wins held_rm + daily_losses held_rm + 1)%Z /\
  open_positions rm' = delete "AAPL" (open_positions held_rm) /\
  (is_paused rm' = true <->
   is_paused held_rm = true \/ daily_pnl held_rm + (-3200) <= - max_daily_loss (config held_rm)).
Proof.
  split; [vm_compute; reflexivity|].
  apply record_trade_closed_same_day. vm_compute. reflexivity.
Defined.

End RiskExtra.


Module RiskExtra2.
Import RiskProofs EngineProofs RiskExtra.

Lemma Qle_bool_false_lt (a b : Q) : Qle_bool a b = false -> b < a.
Proof.
  intros E. apply Qnot_le_lt. intros H. apply Qle_bool_iff in H. congruence.
Qed.

(** X10: an entry that [check_new_order] approves passed every limit: the
    reason is ["approved"], the market is open, the manager is not paused,
    the ticker is not held, fewer than [max_total_positions] positions are
    open, the open exposure is under [equity * max_total_exposure_pct],
    one share costs at most [equity * max_position_value_pct], the equity
    is at or above a positive minimum equity, the daily P&L is zero or
    above [-max_daily_loss], and the drawdown from the (updated) peak is
    under [max_drawdown_pct]; the open positions and the limits are
    unchanged. *)
Theorem check_new_order_approved (env : Env) (rm : RiskManager) (sg : Signal) (tk : string)
    (price equity bp : Q) (acc : option Account) (r : string) (rm' : RiskManager) :
  is_close_kind (sig_direction sg) = false ->
  check_new_order env rm sg tk price equity bp acc = (Ok (true, r), rm') ->
  r = "approved" /\ market_hours env = true /\ is_paused rm' = false /\
  config rm' = config rm /\ open_positions rm' = open_positions rm /\
  open_positions rm !! tk = None /\
  (get_open_position_count rm < max_total_positions (config rm))%Z /\
  exposure (open_positions rm) < equity * max_total_exposure_pct (config rm) /\
  price <= equity * max_position_value_pct (config rm) /\
  (0 < min_equity_for_trading (config rm) -> min_equity_for_trading (config rm) <= equity) /\
  (daily_pnl rm' == 0 \/ - max_daily_loss (config rm) < daily_pnl rm') /\
  equity <= peak_equity rm' /\
  (peak_equity rm' - equity) / peak_equity rm' * 100 < max_drawdown_pct (config rm).
Proof.
  intros Hc H.
  destruct (rollover_frame env rm) as [F1 F2]. pose proof (rollover_config env rm) as F3.
  unfold check_new_order in H. cbv zeta in H.
  set (rm1 := check_day_rollover env rm) in *.
  rewrite Hc in H.
  repeat match type of H with
  | context [if ?c then _ else _] => destruct c eqn:?; try discriminate H
  end.
  all: injection H as <- <-; unfold rm_set_peak in *; simpl in *;
    rewrite ?F1, ?F2, ?F3 in *.
  all: apply bool_decide_eq_false in Heqb5; apply Z.leb_gt in Heqb6;
    apply andb_false_iff in Heqb1, Heqb2; qbool;
    apply Qle_bool_false_lt in Heqb4, Heqb7.
  all: split; [reflexivity|]; split; [destruct (market_hours env); [reflexivity | discriminate]|].
  all: do 3 (split; [first [assumption | reflexivity]|]).
  all: split; [destruct (open_positions rm !! tk); [exfalso; apply Heqb5; eexists; reflexivity | reflexivity]|].
  all: unfold get_open_position_count; split; [exact Heqb6|]; split; [lra|]; split; [assumption|].
  all: split; [intros Hm; destruct Heqb1 as [E|E]; qbool; lra|].
  all: split; [destruct Heqb2 as [E|E]; qbool;
         [left; apply Qabs_Qle_condition in E; destruct E; lra | right; apply Qle_bool_false_lt in E; exact E]|].
  all: split; [lra | assumption].
Qed.

Lemma check_new_order_approved_witness :
  let rm := rm0 cfg0 in
  check_new_order env0 rm long_signal "MSTR" 100 60000 120000 (Some acc0) =
    (Ok (true, "approved"), rm) /\
  ("approved" = "approved" /\ market_hours env0 = true /\ is_paused rm = false /\
  config rm = config rm /\ open_positions rm = open_positions rm /\
  open_positions rm !! "MSTR" = None /\
  (get_open_position_count rm < max_total_positions (config rm))%Z /\
  exposure (open_positions rm) < 60000 * max_total_exposure_pct (config rm) /\
  100 <= 60000 * max_position_value_pct (config rm) /\
  (0 < min_equity_for_trading (config rm) -> min_equity_for_trading (config rm) <= 60000) /\
  (daily_pnl rm == 0 \/ - max_daily_loss (config rm) < daily_pnl rm) /\
  60000 <= peak_equity rm /\
  (peak_equity rm - 60000) / peak_equity rm * 100 < max_drawdown_pct (config rm)).
Proof.
  assert (E : check_new_order env0 (rm0 cfg0) long_signal "MSTR" 100 60000 120000 (Some acc0) =
    (Ok (true, "approved"), rm0 cfg0)) by (vm_compute; reflexivity).
  split; [exact E|].
  exact (check_new_order_approved env0 (rm0 cfg0) long_signal "MSTR" 100 60000 120000
           (Some acc0) "approved" (rm0 cfg0) eq_refl E).
Defined.

Lemma record_trade_closed_peak (env : Env) (rm : RiskManager) (t : string) (pnl : Q) :
  peak_equity (record_trade_closed env rm t pnl) = peak_equity rm.
Proof.
  destruct (rollover_frame env rm) as [_ F2].
  unfold record_trade_closed, rm_pause, rm_set_paused. cbv zeta.
  repeat match goal with
  | |- context [if ?c then _ else _] => destruct c
  end; simpl; rewrite F2; reflexivity.
Qed.

Lemma apply_op_peak (rm : RiskManager) (op : RmOp) :
  peak_equity rm <= peak_equity (apply_op rm op).
Proof.
  destruct op as [env sg tk price equity bp acc | tk v | env tk pnl |]; simpl.
  - apply (check_new_order_frame env rm sg tk price equity bp acc).
  - apply Qle_refl.
  - rewrite record_trade_closed_peak. apply Qle_refl.
  - unfold rm_resume. destruct (is_paused rm); apply Qle_refl.
Qed.

Lemma apply_ops_peak (ops : list RmOp) (rm : RiskManager) :
  peak_equity rm <= peak_equity (fold_left apply_op ops rm).
Proof.
  revert rm. induction ops as [|op ops IH]; intros rm; simpl; [apply Qle_refl|].
  eapply Qle_trans; [apply apply_op_peak | apply IH].
Qed.

Lemma check_new_order_no_raise (env : Env) (rm : RiskManager) (sg : Signal) (tk : string)
    (price equity bp : Q) (acc : option Account) :
  0 < peak_equity rm ->
  fst (check_new_order env rm sg tk price equity bp acc) <> Raised.
Proof.
  intros Hpk.
  destruct (rollover_frame env rm) as [_ F2]. rewrite <- F2 in Hpk.
  unfold check_new_order. cbv zeta.
  set (rm1 := check_day_rollover env rm) in *.
  repeat match goal with
  | |- context [if ?c then _ else _] => destruct c eqn:?
  end; simpl; try discriminate; intros _;
  unfold rm_set_peak in *; simpl in *; qbool;
  match goal with H : Qeq_bool _ 0 = true |- _ => apply Qeq_bool_iff in H; revert H end;
  apply Qpos_neq0; [eapply Qlt_trans; eassumption | exact Hpk].
Qed.

(** X11: a manager built with a positive initial equity keeps its peak
    equity at or above that initial equity through any sequence of
    [check_new_order], [record_trade_opened], [record_trade_closed] and
    [resume] calls, so [check_new_order] never raises the
    [ZeroDivisionError] of the drawdown check. *)
Theorem check_new_order_never_raises (cfg : RiskConfig) (e : Q) (start : Env) (ops : list RmOp)
    (env : Env) (sg : Signal) (tk : string) (price equity bp : Q) (acc : option Account) :
  0 < e ->
  let rm := fold_left apply_op ops (rm_init cfg e start) in
  e <= peak_equity rm /\ fst (check_new_order env rm sg tk price equity bp acc) <> Raised.
Proof.
  intros He rm.
  assert (Hp : e <= peak_equity rm) by apply (apply_ops_peak ops (rm_init cfg e start)).
  split; [exact Hp|].
  apply check_new_order_no_raise. eapply Qlt_le_trans; eassumption.
Qed.

Lemma check_new_order_never_raises_witness :
  let rm := fold_left apply_op [OpCheck env0 long_signal "MSTR" 100 0 0 None;
                                OpClosed env0 "MSTR" (-50)] (rm_init cfg0 60000 env0) in
  60000 <= peak_equity rm /\
  fst (check_new_order env0 rm long_signal "AAPL" 100 0 0 None) <> Raised.
Proof. apply check_new_order_never_raises. reflexivity. Defined.

End RiskExtra2.


Module AggregatorExtra.
Import Aggregator AggregatorProofs.

(** X12: for a timeframe of at least one minute, the window a timestamp
    falls in starts at or before it and ends after it, and the start of
    a window lies in that same window. *)
Theorem window_start_bounds (N ts : Z) :
  (0 < N)%Z ->
  (get_window_start N ts <= ts < get_window_start N ts + N)%Z /\
  get_window_start N (get_window_start N ts) = get_window_start N ts.
Proof.
  intros HN. unfold get_window_start, minute.
  set (m := (ts mod 60)%Z).
  assert (Hm : (0 <= m < 60)%Z) by (apply Z.mod_pos_bound; lia).
  pose proof (Z.div_mod m N ltac:(lia)) as Hd.
  pose proof (Z.mod_pos_bound m N HN) as Hr.
  assert (Hts : ts = (60 * (ts / 60) + m)%Z) by (apply Z.div_mod; lia).
  split; [lia|].
  assert (Hk : ((ts - m + m / N * N) mod 60 = m / N * N)%Z).
  { replace (ts - m + m / N * N)%Z with (m / N * N + ts / 60 * 60)%Z by lia.
    rewrite Z_mod_plus_full. apply Z.mod_small.
    assert (0 <= m / N)%Z by (apply Z.div_pos; lia). nia. }
  rewrite Hk, Z.div_mul by lia. lia.
Qed.

Lemma window_start_bounds_witness :
  (get_window_start 5 (at1400 37) <= at1400 37 < get_window_start 5 (at1400 37) + 5)%Z /\
  get_window_start 5 (get_window_start 5 (at1400 37)) = get_window_start 5 (at1400 37).
Proof. apply window_start_bounds. lia. Defined.

Lemma last_In_cons (b0 : Bar) (rest : list Bar) : In (List.last (b0 :: rest) b0) (b0 :: rest).
Proof.
  generalize b0 at 2. revert b0.
  induction rest as [|b rest IH]; intros b0 d; [left; reflexivity|].
  right. change (List.last (b0 :: b :: rest) d) with (List.last (b :: rest) d). apply IH.
Qed.

(** X13: aggregating bars whose open and close lie between their low and
    high gives a bar whose open and close lie between its low and high. *)
Theorem aggregate_well_formed (b0 : Bar) (rest : list Bar) (ws : Z) :
  Forall bar_ok (b0 :: rest) -> bar_ok (aggregate b0 rest ws).
Proof.
  intros Hall. rewrite List.Forall_forall in Hall.
  destruct (aggregate_fields b0 rest ws) as (_ & Ho & Hc & Hh & _ & Hl & _).
  assert (H0 : In b0 (b0 :: rest)) by (left; reflexivity).
  pose proof (last_In_cons b0 rest) as HL.
  destruct (Hall b0 H0) as [[O1 O2] _].
  destruct (Hall _ HL) as [_ [C1 C2]].
  pose proof (Hh _ H0). pose proof (Hl _ H0). pose proof (Hh _ HL). pose proof (Hl _ HL).
  unfold bar_ok. rewrite Ho, Hc. lra.
Qed.

Lemma aggregate_well_formed_witness :
  let bs := [mbar 30 10 12 9 11 100; mbar 31 11 13 10 12 50] in
  Forall bar_ok bs /\ bar_ok (aggregate (mbar 30 10 12 9 11 100) [mbar 31 11 13 10 12 50] (at1400 30)).
Proof.
  assert (H : Forall bar_ok [mbar 30 10 12 9 11 100; mbar 31 11 13 10 12 50]).
  { repeat constructor; unfold bar_ok; simpl; lra. }
  split; [exact H|]. exact (aggregate_well_formed _ _ (at1400 30) H).
Defined.

End AggregatorExtra.


Module FlushExtra.
Import Aggregator AggregatorInv AggregatorProofs.

Lemma flat_map_ext_in {A B : Type} (f g : A -> list B) (l : list A) :
  (forall a, In a l -> f a = g a) -> flat_map f l = flat_map g l.
Proof.
  induction l as [|a l IH]; intros H; simpl; [reflexivity|].
  rewrite (H a (or_introl eq_refl)), IH; [reflexivity|]. intros x Hx. apply H. right. exact Hx.
Qed.

Lemma flush_fold (ts : list string) (bs : Buffers) (out : list (string * Bar)) :
  let r := fold_left flush_step ts (bs, out) in
  (forall k, fst r !! k =
     if bool_decide (k ∈ ts) then (fun b => mkBuf (window_start b) []) <$> bs !! k
     else bs !! k) /\
  d_keys (fst r) = d_keys bs /\
  (NoDup ts -> snd r = out ++ flat_map (fun t => match bs !! t with
                                                 | Some b => emit_buf t b
                                                 | None => [] end) ts).
Proof.
  revert bs out. induction ts as [|t ts IH]; intros bs out; cbn [fold_left].
  { split; [intros k; reflexivity|]. split; [reflexivity|].
    intros _; simpl; rewrite app_nil_r; reflexivity. }
  set (clr := fun b : Buf => mkBuf (window_start b) []).
  (* one step of the loop *)
  assert (Hstep : exists bs1 out1,
    flush_step (bs, out) t = (bs1, out1) /\
    (forall k, bs1 !! k = if decide (k = t) then clr <$> bs !! k else bs !! k) /\
    d_keys bs1 = d_keys bs /\
    out1 = out ++ match bs !! t with Some b => emit_buf t b | None => [] end).
  { unfold flush_step. destruct (bs !! t) as [b|] eqn:E.
    - destruct (bars b) as [|b1 bl] eqn:Eb.
      + exists bs, out. split; [reflexivity|]. split; [|split; [reflexivity|]].
        * intros k. case_decide; [subst k; rewrite E; simpl; unfold clr;
            destruct b; simpl in Eb; subst; reflexivity | reflexivity].
        * unfold emit_buf. rewrite Eb, app_nil_r. reflexivity.
      + eexists _, _. split; [reflexivity|]. split; [|split; [|reflexivity]].
        * intros k. case_decide.
          -- subst k. rewrite dict_lookup_insert_eq, E. reflexivity.
          -- rewrite dict_lookup_insert_ne by congruence. reflexivity.
        * apply dict_keys_insert_present. rewrite E. eexists; reflexivity.
    - exists bs, out. split; [reflexivity|]. split; [|split; [reflexivity|]].
      + intros k. case_decide; [subst k; rewrite E; reflexivity | reflexivity].
      + rewrite app_nil_r. reflexivity. }
  destruct Hstep as (bs1 & out1 & Hf & Hl & Hk & Ho).
  rewrite Hf.
  destruct (IH bs1 out1) as (IH1 & IH2 & IH3). split; [|split].
  - intros k. rewrite IH1, Hl.
    destruct (decide (k = t)) as [->|Hne].
    + rewrite (bool_decide_eq_true_2 (t ∈ t :: ts)) by (left; reflexivity).
      destruct (bool_decide (t ∈ ts)); [|reflexivity].
      destruct (bs !! t); reflexivity.
    + rewrite (bool_decide_ext (k ∈ t :: ts) (k ∈ ts)); [reflexivity|].
      rewrite elem_of_cons. tauto.
  - rewrite IH2. exact Hk.
  - intros Hnd. inversion Hnd as [|? ? Hnin Hnd']; subst.
    rewrite IH3 by exact Hnd'. simpl. rewrite <- app_assoc. f_equal. f_equal.
    apply flat_map_ext_in. intros a Ha. rewrite Hl.
    destruct (decide (a = t)) as [->|]; [|reflexivity].
    exfalso. apply Hnin. apply list_elem_of_In. exact Ha.
Qed.

Lemma flush_fold_wf (ts : list string) (bs : Buffers) (out : list (string * Bar)) :
  dict_wf bs -> dict_wf (fold_left flush_step ts (bs, out)).1.
Proof.
  revert bs out. induction ts as [|t ts IH]; intros bs out Hwf; cbn [fold_left]; [exact Hwf|].
  unfold flush_step at 2. destruct (bs !! t) as [b|]; [destruct (bars b)|];
    apply IH; try apply dict_wf_insert; exact Hwf.
Qed.

Lemma run_wf (N : Z) (es : list Event) (bufs : Buffers) :
  dict_wf bufs -> dict_wf (fst (run N bufs es)).
Proof.
  revert bufs. induction es as [|e es IH]; intros bufs Hwf; [exact Hwf|].
  cbn [run].
  assert (Hs : dict_wf (fst (step N bufs e))).
  { destruct e as [t b | tk]; simpl step.
    - unfold on_minute_bar. destruct (Z.eqb N 1); [exact Hwf|]. cbv zeta.
      destruct (Z.eqb _ (window_start _)); destruct (Z.leb _ _);
        cbn [fst]; apply dict_wf_insert; exact Hwf.
    - unfold flush. apply flush_fold_wf. exact Hwf. }
  destruct (step N bufs e) as [b1 o1]. cbn [fst] in Hs.
  specialize (IH b1 Hs). destruct (run N b1 es) as [b2 o2]. exact IH.
Qed.

(** X14: after any run of the aggregator from empty buffers, [flush()]
    with no ticker empties the bar list of every buffer and keeps its
    window start and the dict's key order, and it hands to the callback
    the aggregate of every buffer that holds bars, ticker by ticker in the
    order of [self._buffers.keys()], the order in which the tickers'
    buffers were created. *)
Theorem flush_all (N : Z) (es : list Event) :
  let bufs := fst (run N ∅ es) in
  fst (flush bufs None) = (fun b => mkBuf (window_start b) []) <$> bufs /\
  snd (flush bufs None) =
    flat_map (fun k => match bufs !! k with Some b => emit_buf k b | None => [] end)
             (d_keys bufs).
Proof.
  intros bufs.
  assert (Hwf : dict_wf bufs) by (apply run_wf, dict_wf_empty).
  destruct Hwf as [Hnd Hin].
  unfold flush.
  destruct (flush_fold (d_keys bufs) bufs []) as (H1 & H2 & H3).
  split.
  - apply dict_eq; [|exact H2].
    intros k. rewrite H1, dict_lookup_fmap.
    case_bool_decide as Hk; [reflexivity|].
    destruct (bufs !! k) as [b|] eqn:E; [|reflexivity].
    exfalso. apply Hk, Hin. exists b. exact E.
  - rewrite H3 by exact Hnd. reflexivity.
Qed.

(** X15: [flush(t)] for one (non-empty) ticker empties that ticker's bar
    list, keeping its window start, leaves every other buffer as it was,
    and hands to the callback at most the one aggregate of that ticker's
    buffer. *)
Theorem flush_one (bufs : Buffers) (t : string) :
  t <> "" ->
  fst (flush bufs (Some t)) = alter (fun b => mkBuf (window_start b) []) t bufs /\
  snd (flush bufs (Some t)) = match bufs !! t with Some b => emit_buf t b | None => [] end.
Proof.
  intros Ht. unfold flush.
  assert (E : streq t "" = false) by (destruct (streq t "") eqn:E; [apply streq_iff in E; contradiction | reflexivity]).
  rewrite E.
  destruct (flush_fold [t] bufs []) as (H1 & H2 & H3).
  split.
  - apply dict_eq; [|exact H2].
    intros k. rewrite H1, dict_lookup_alter.
    destruct (decide (t = k)) as [<-|Hne].
    + rewrite bool_decide_eq_true_2 by (apply list_elem_of_singleton; reflexivity). reflexivity.
    + rewrite bool_decide_eq_false_2; [reflexivity|].
      rewrite list_elem_of_singleton. congruence.
  - rewrite H3 by (constructor; [apply not_elem_of_nil | constructor]).
    simpl. rewrite app_nil_r. reflexivity.
Qed.

Lemma flush_one_witness :
  let bufs : Buffers := <["MSTR" := mkBuf (at1400 30) [mbar 30 10 12 9 11 100]]> ∅ in
  "MSTR" <> "" /\
  fst (flush bufs (Some "MSTR")) = alter (fun b => mkBuf (window_start b) []) "MSTR" bufs /\
  snd (flush bufs (Some "MSTR")) =
    match bufs !! "MSTR" with Some b => emit_buf "MSTR" b | None => [] end.
Proof. split; [discriminate|]. apply flush_one. discriminate. Defined.

Lemma emit_buf_for (t : string) (buf : Buf) :
  Forall (fun p => p.1 = t) (emit_buf t buf) /\ (length (emit_buf t buf) <= 1)%nat.
Proof.
  unfold emit_buf. destruct (bars buf); simpl; split; auto.
Qed.

(** X16: [on_minute_bar] touches no buffer but the bar's own ticker's,
    and hands to the callback at most two bars, all for that ticker (the
    previous window's when the bar opens a new window, and the new
    window's when the bar is its last minute). *)
Theorem on_minute_bar_local (N : Z) (bufs : Buffers) (t : string) (b : Bar) :
  (forall k, k <> t -> (on_minute_bar N bufs t b).1 !! k = bufs !! k) /\
  Forall (fun p => p.1 = t) (on_minute_bar N bufs t b).2 /\
  (length (on_minute_bar N bufs t b).2 <= 2)%nat.
Proof.
  unfold on_minute_bar. destruct (Z.eqb N 1).
  { simpl. split; [reflexivity|]. split; [constructor; [reflexivity | constructor] | lia]. }
  cbv zeta.
  match goal with
  | |- context [if Z.eqb ?a (window_start ?bf) then _ else _] =>
      set (buf := bf); destruct (Z.eqb a (window_start buf))
  end.
  all: match goal with
  | |- context [if Z.leb ?a ?c then _ else _] => destruct (Z.leb a c)
  end; simpl.
  all: repeat match goal with
  | |- context [emit_buf ?tk ?x] =>
      let F := fresh "F" in let L := fresh "L" in
      destruct (emit_buf_for tk x) as [F L]; revert F L; generalize (emit_buf tk x); intros
  end.
  all: split; [intros k Hk; rewrite dict_lookup_insert_ne by congruence; reflexivity|].
  all: rewrite ?length_app; split; [rewrite ?Forall_app; tauto || auto | lia].
Qed.

End FlushExtra.


Module ReconcileExtra.
Import Reconciler Engine.

Lemma adopt_reconcile (bp : BrokerPos) (t : string) :
  reconcile (Some (adopt_broker_position bp t)) (Some bp) =
    mkResult true (Some bp) (Some (adopt_broker_position bp t)) "none".
Proof.
  assert (E : Qlt_bool (Qabs (quantity (adopt_broker_position bp t) - qty bp)) (1 # 100) = true).
  { apply Qlt_bool_iff. cbn [quantity adopt_broker_position trade tr_quantity].
    unfold Qminus. rewrite Qplus_opp_r. reflexivity. }
  assert (D : streq (direction (adopt_broker_position bp t)) (side bp) = true) by apply streq_refl.
  unfold reconcile. rewrite E, D. reflexivity.
Qed.

(** X17: a position adopted from the broker agrees with that broker
    position: reconciling it against the same broker position reports a
    match with action ["none"]. *)
Theorem adopt_then_reconcile_matches (bp : BrokerPos) (t : string) :
  reconcile (Some (adopt_broker_position bp t)) (Some bp) =
    mkResult true (Some bp) (Some (adopt_broker_position bp t)) "none".
Proof. apply adopt_reconcile. Qed.

(** X18: unless it reports a mismatch, one [reconcile] pass leaves the
    engine agreeing with an unchanged broker: a second pass reports a
    match and changes neither the engine nor the risk manager; neither
    pass touches the risk manager. *)
Theorem reconcile_op_repairs (b : Broker) (w : World) (r1 : ReconcileResult) (w1 : World) :
  reconcile_op b w = Ok (r1, w1) ->
  r_action r1 <> "mismatch" ->
  rmgr w1 = rmgr w /\
  match reconcile_op b w1 with
  | Ok (r2, w2) => r_match r2 = true /\ eng w2 = eng w1 /\ rmgr w2 = rmgr w1
  | Raised => False
  end.
Proof.
  intros H Hm. destruct w as [e rm cs].
  unfold reconcile_op, bind, get, log_call, ret, modify_eng in *.
  cbn [eng rmgr calls] in *.
  destruct (position e) as [l|] eqn:Hp, (get_position b (ticker e)) as [bp|] eqn:Hb.
  - unfold reconcile in H |- *. rewrite ?Hp.
    destruct (streq (direction l) (side bp) && Qlt_bool (Qabs (quantity l - qty bp)) (1 # 100)) eqn:E;
      simpl in H; injection H as <- <-; simpl in *; [|contradiction].
    rewrite Hp, Hb, E. simpl. repeat split; reflexivity.
  - simpl in H. injection H as <- <-. simpl. split; [reflexivity|].
    rewrite Hb. simpl. repeat split; reflexivity.
  - simpl in H. injection H as <- <-. cbn [eng rmgr calls]. split; [reflexivity|].
    pose proof (adopt_reconcile bp (ticker e)) as A. unfold adopt_broker_position in A |- *.
    cbn [position set_active_tf set_position ticker]. rewrite Hb, A.
    simpl. repeat split; reflexivity.
  - simpl in H. injection H as <- <-. simpl. split; [reflexivity|].
    rewrite Hp, Hb. simpl. repeat split; reflexivity.
Qed.

Lemma reconcile_op_repairs_witness :
  let bp := mkBrokerPos "long" 10 100 in
  let b := mkBroker (Ok acc0) (fun _ => None) (fun _ => Ok None) (fun _ => Some bp) in
  let w := mkWorld (eng0 None true) (rm0 cfg0) [] in
  let w1 := mkWorld (set_active_tf (Some "reconciled")
                       (set_position (Some (adopt_broker_position bp "AAPL")) (eng0 None true)))
                    (rm0 cfg0) [CallGetPosition "AAPL"] in
  rmgr w1 = rmgr w /\
  match reconcile_op b w1 with
  | Ok (r2, w2) => r_match r2 = true /\ eng w2 = eng w1 /\ rmgr w2 = rmgr w1
  | Raised => False
  end.
Proof.
  intros bp b w w1.
  apply (reconcile_op_repairs b w (mkResult false (Some bp) None "adopt_broker") w1).
  - vm_compute. reflexivity.
  - vm_compute. discriminate.
Defined.

End ReconcileExtra.


Module EngineExtra.
Import Engine RiskProofs RiskExtra EngineProofs.

(** X19: when the broker's [close_position] raises, [_close_position]
    only records the attempt: the engine keeps its position and active
    timeframe and the risk manager is untouched, so the next bar can try
    again. *)
Theorem close_failure_keeps_state (b : Broker) (env : Env) (sg : Signal) (row : Row)
    (tf : string) (w : World) :
  close_position b (ticker (eng w)) = Raised ->
  close_position_op b env sg row tf w =
    Ok (tt, mkWorld (eng w) (rmgr w)
              (calls w ++ match position (eng w) with
                          | Some _ => [CallClose (ticker (eng w))]
                          | None => [] end)).
Proof.
  intros H. destruct w as [e rm cs]. cbn [eng rmgr calls] in *.
  unfold close_position_op, bind, get, log_call, ret. cbn [eng rmgr calls].
  destruct (position e); [rewrite H; reflexivity | rewrite app_nil_r; reflexivity].
Qed.

Lemma close_failure_keeps_state_witness :
  let w := mkWorld (eng0 (Some c3_position) true) held_rm [] in
  close_position (broker_with Raised) (ticker (eng w)) = Raised /\
  close_position_op (broker_with Raised) env0 close_sig c6_row "2m" w =
    Ok (tt, mkWorld (eng w) (rmgr w)
              (calls w ++ match position (eng w) with
                          | Some _ => [CallClose (ticker (eng w))]
                          | None => [] end)).
Proof.
  intros w. split; [reflexivity|]. apply close_failure_keeps_state. reflexivity.
Defined.

(** X20: a close the broker fills, with a risk manager on its current
    day, adds the position's unrealized P&L at the fill price to the
    daily P&L, drops the ticker from the manager's open positions, clears
    the engine's position and active timeframe, and leaves the engine
    active exactly when it was and the manager is not paused.  (A
    position with zero quantity is left out: the source's [pnl_pct]
    division raises for it.) *)
Theorem close_records_unrealized_pnl (b : Broker) (env : Env) (sg : Signal) (row : Row)
    (tf : string) (w : World) (pos : Position) (tr : Trade) :
  position (eng w) = Some pos ->
  ~ quantity pos == 0 ->
  close_position b (ticker (eng w)) = Ok (Some tr) ->
  has_risk_manager (eng w) = true ->
  today env = current_date (rmgr w) ->
  exists w', close_position_op b env sg row tf w = Ok (tt, w') /\
    position (eng w') = None /\ active_tf (eng w') = None /\
    daily_pnl (rmgr w') = daily_pnl (rmgr w) + unrealized_pnl pos (tr_entry_price tr) /\
    open_positions (rmgr w') = delete (ticker (eng w)) (open_positions (rmgr w)) /\
    active (eng w') = active (eng w) && negb (is_paused (rmgr w')) /\
    calls w' = calls w ++ [CallClose (ticker (eng w))].
Proof.
  intros Hp Hq Hc Hr Hd. destruct w as [e rm cs]. cbn [eng rmgr calls] in *.
  destruct (record_trade_closed_pnl_same_day env rm (ticker e) (unrealized_pnl pos (tr_entry_price tr)) Hd)
    as (P1 & P5).
  unfold close_position_op, bind, get, log_call, ret, modify_eng, modify_rm.
  cbn [eng rmgr calls]. rewrite Hp, Hc. cbn [eng rmgr calls].
  rewrite (close_no_zero_div pos Hq), Hr. cbn [eng rmgr calls].
  fold (unrealized_pnl pos (tr_entry_price tr)).
  destruct (is_paused (record_trade_closed env rm (ticker e) (unrealized_pnl pos (tr_entry_price tr)))) eqn:Ep;
    (eexists; split; [reflexivity|]); cbn; rewrite ?Ep;
    (split; [reflexivity|]); (split; [reflexivity|]); (split; [exact P1|]); (split; [exact P5|]);
    (split; [|reflexivity]); destruct (active e); reflexivity.
Qed.

Lemma close_records_unrealized_pnl_witness :
  let w := mkWorld (eng0 (Some c3_position) true) held_rm [] in
  let tr := mkTrade "AAPL" "long" 10 97 in
  exists w', close_position_op (broker_with (Ok (Some tr))) env0 close_sig c6_row "2m" w = Ok (tt, w') /\
    position (eng w') = None /\ active_tf (eng w') = None /\
    daily_pnl (rmgr w') = daily_pnl (rmgr w) + unrealized_pnl c3_position (tr_entry_price tr) /\
    open_positions (rmgr w') = delete (ticker (eng w)) (open_positions (rmgr w)) /\
    active (eng w') = active (eng w) && negb (is_paused (rmgr w')) /\
    calls w' = calls w ++ [CallClose (ticker (eng w))].
Proof.
  intros w tr.
  apply (close_records_unrealized_pnl (broker_with (Ok (Some tr))) env0 close_sig c6_row "2m" w
           c3_position tr); try reflexivity.
  vm_compute. discriminate.
Defined.

Lemma calculate_quantity_pos (b : Broker) (price : Q) (sg : Signal) (acc : option Account)
    (w : World) (q : Z) (w' : World) :
  calculate_quantity b price sg acc w = Ok (q, w') -> (1 <= q)%Z.
Proof.
  unfold calculate_quantity, bind, get, ret, log_call, raise.
  destruct acc as [a|]; [|destruct (get_account b) as [a|]]; cbn [eng rmgr calls];
    destruct (Qeq_bool price 0); intros H; try discriminate H; injection H as <- _;
    match goal with |- context [Z.ltb 1 ?n] => destruct (Z.ltb_spec 1 n) end; lia.
Qed.

(** X21: [_open_position] submits at most one order, and an order it
    submits is for the engine's ticker, in the signal's direction with the
    signal's stop-loss and target, for at least one share. *)
Theorem open_position_orders (b : Broker) (env : Env) (sg : Signal) (row : Row) (tf : string)
    (w : World) (u : unit) (w' : World) :
  open_position_op b env sg row tf w = Ok (u, w') ->
  exists new, calls w' = calls w ++ new /\ (submits new <= 1)%nat /\
    Forall (fun c => match c with
                     | CallSubmit o =>
                         (1 <= o_quantity o)%Z /\ o_ticker o = ticker (eng w) /\
                         o_direction o = sig_direction sg /\
                         o_stop_loss o = sig_stop_loss sg /\ o_take_profit o = sig_take_profit sg
                     | _ => True
                     end) new.
Proof.
  unfold open_position_op, bind, get, ret, log_call, modify_eng, modify_rm, raise.
  intros H.
  repeat (match goal with
  | H' : context [match ?x with _ => _ end] |- _ => destruct x eqn:?
  end; cbn [eng rmgr calls] in *); simplify_eq.
  all: try match goal with
  | E : calculate_quantity _ _ _ _ _ = Ok _ |- _ =>
      let Hq := fresh "Hq" in
      pose proof E as Hq; apply calculate_quantity_pos in Hq;
      apply calculate_quantity_frame in E; destruct E as (Ee & _ & Ec & _)
  end.
  all: cbn [eng rmgr calls slots ticker set_position set_active_tf] in *;
    try rewrite Ee; try (destruct Ec as [Ec|Ec]; rewrite Ec); cbn [eng rmgr calls] in *;
    rewrite <- ?app_assoc.
  all: first [exists []; split; [symmetry; apply app_nil_r | split; [unfold submits; simpl; lia | apply List.Forall_nil]]
             | eexists; split; [reflexivity|]; split; [unfold submits; simpl; lia|];
               repeat (first [apply List.Forall_nil | apply List.Forall_cons]);
               cbn [o_quantity o_ticker o_direction o_stop_loss o_take_profit];
               try exact I; repeat split; lia].
Qed.

Lemma open_position_orders_witness :
  match open_position_op (fill_broker acc0 103) env0 long_signal c6_row "5m" c6_world with
  | Ok (_, w') =>
      exists new, calls w' = calls c6_world ++ new /\ (submits new <= 1)%nat /\ new <> [] /\
        Forall (fun c => match c with
                         | CallSubmit o =>
                             (1 <= o_quantity o)%Z /\ o_ticker o = ticker (eng c6_world) /\
                             o_direction o = sig_direction long_signal /\
                             o_stop_loss o = sig_stop_loss long_signal /\
                             o_take_profit o = sig_take_profit long_signal
                         | _ => True
                         end) new
  | Raised => False
  end.
Proof.
  destruct (open_position_op (fill_broker acc0 103) env0 long_signal c6_row "5m" c6_world)
    as [[u w']|] eqn:E.
  - destruct (open_position_orders _ _ _ _ _ _ _ _ E) as (new & H1 & H2 & H3).
    exists new. split; [exact H1|]. split; [exact H2|]. split; [|exact H3].
    intros ->. vm_compute in E. injection E as Eu Ew. subst w'. vm_compute in H1. discriminate H1.
  - vm_compute in E. discriminate E.
Defined.

Lemma py_min_nonneg (a b : Q) : 0 <= a -> 0 <= b -> 0 <= py_min a b.
Proof. intros Ha Hb. unfold py_min. destruct (Qlt_bool b a); assumption. Qed.

(** X22: with a non-negative ADX, [_score_signal] either returns the
    [-999] hard-block value or at least [10]: once the RSI and agreement
    gates pass, the ADX, reward/risk and timeframe terms add nothing
    negative, the agreement bonus adds at least 15 and the RSI term takes
    off at most 5.  So the [best_score > 0] test of [_evaluate_entries]
    only rejects hard-blocked signals. *)
Theorem score_signal_floor (now : Q) (ss : list Slot) (s : Slot) (sg : Signal) :
  0 <= get_adx s ->
  score_signal now ss s sg = -999 \/ 10 <= score_signal now ss s sg.
Proof.
  intros Hadx. unfold score_signal. cbv zeta.
  destruct (match get_rsi s with
            | Some r => (streq (sig_direction sg) "long" && Qlt_bool 80 r)
                        || (streq (sig_direction sg) "short" && Qlt_bool r 20)
            | None => false end); [left; reflexivity|].
  destruct (Z.ltb (count_tf_agreement now ss sg) 2) eqn:Ec; [left; reflexivity|].
  right. apply Z.ltb_ge in Ec.
  assert (Hag : 15 <= inject_Z (count_tf_agreement now ss sg - 1) * 15).
  { assert (H1 : inject_Z 1 <= inject_Z (count_tf_agreement now ss sg - 1))
      by (rewrite <- Zle_Qle; lia).
    change (inject_Z 1) with 1 in H1. lra. }
  match goal with |- context [py_max 0 ?x] => pose proof (py_max_ge_l 0 x) as Htf end.
  assert (Hadx_part : 0 <= (if Qlt_bool 25 (get_adx s) then 0 + py_min (get_adx s * 1) 40
                             else if Qlt_bool 20 (get_adx s) then 0 + get_adx s * (1 # 2)
                             else 0 + get_adx s * (1 # 5))).
  { destruct (Qlt_bool 25 (get_adx s)) eqn:E1; [|destruct (Qlt_bool 20 (get_adx s))]; qbool.
    - pose proof (py_min_nonneg (get_adx s * 1) 40 ltac:(lra) ltac:(lra)). lra.
    - lra.
    - lra. }
  revert Hadx_part.
  generalize (if Qlt_bool 25 (get_adx s) then 0 + py_min (get_adx s * 1) 40
              else if Qlt_bool 20 (get_adx s) then 0 + get_adx s * (1 # 2)
              else 0 + get_adx s * (1 # 5)).
  intros A HA.
  assert (HR : A <= match last_signal_row s with
                    | Some row =>
                        if py_truthy (sig_stop_loss sg) && py_truthy (sig_take_profit sg) then
                          let price := b_close (r_bar row) in
                          let sl := match sig_stop_loss sg with Some x => x | None => 0 end in
                          let tp := match sig_take_profit sg with Some x => x | None => 0 end in
                          let risk := Qabs (price - sl) in
                          let reward := Qabs (tp - price) in
                          if Qlt_bool 0 risk then A + py_min ((reward / risk) * 10) 30 else A
                        else A
                    | None => A
                    end).
  { destruct (last_signal_row s) as [row|]; [|apply Qle_refl].
    destruct (py_truthy (sig_stop_loss sg) && py_truthy (sig_take_profit sg)); [|apply Qle_refl].
    cbv zeta.
    destruct (Qlt_bool 0 _) eqn:E; [|apply Qle_refl]. qbool.
    assert (0 <= py_min (Qabs (match sig_take_profit sg with Some x => x | None => 0 end
                                - b_close (r_bar row)) /
                         Qabs (b_close (r_bar row) - match sig_stop_loss sg with
                                                     | Some x => x | None => 0 end) * 10) 30).
    { apply py_min_nonneg; [|lra].
      apply Qmult_le_0_compat; [|lra].
      apply Qle_shift_div_l; [assumption|]. rewrite Qmult_0_l. apply Qabs_nonneg. }
    lra. }
  revert HR. cbv zeta.
  generalize (match last_signal_row s with
              | Some row =>
                  if py_truthy (sig_stop_loss sg) && py_truthy (sig_take_profit sg) then
                    if Qlt_bool 0 (Qabs (b_close (r_bar row) -
                                         match sig_stop_loss sg with Some x => x | None => 0 end))
                    then A + py_min (Qabs (match sig_take_profit sg with Some x => x | None => 0 end
                                           - b_close (r_bar row)) /
                                     Qabs (b_close (r_bar row) -
                                           match sig_stop_loss sg with Some x => x | None => 0 end)
                                     * 10) 30
                    else A
                  else A
              | None => A
              end).
  intros R HR.
  destruct (get_rsi s) as [r|];
    [destruct (streq (sig_direction sg) "long");
     [|destruct (streq (sig_direction sg) "short")];
     repeat (destruct (Qlt_bool _ _)) |]; lra.
Qed.

Lemma score_signal_floor_witness :
  0 <= get_adx c6_slot5 /\
  (score_signal 1000 [c6_slot2; c6_slot5] c6_slot5 long_signal = -999 \/
   10 <= score_signal 1000 [c6_slot2; c6_slot5] c6_slot5 long_signal).
Proof.
  assert (H : 0 <= get_adx c6_slot5) by (apply Qle_bool_iff; vm_compute; reflexivity).
  split; [exact H | apply (score_signal_floor 1000 [c6_slot2; c6_slot5] c6_slot5 long_signal H)].
Defined.

End EngineExtra.
